(** * Better Auto-Reply: the group-message decision pipeline

    A shallow embedding of [src/main.py] (class [BetterAutoReplyPlugin]):
    the trigger gate, the prompt rendering, the model call, the extraction
    of the decision from the model's text and the reply dispatch, together
    with the Python string and [json] operations the handler relies on.

    Python [str] values are sequences of Unicode code points; they are
    modelled as lists of [N].  The effects of the handler (log lines, the
    stop-event signal, the model call, the yielded reply request) are
    recorded in order in a trace. *)

From Stdlib Require Import String.
From Stdlib Require Import List NArith ZArith Bool Ascii Lia.
Import ListNotations.

(** ** Python strings *)

Module PyStr.

Definition char := N.
Definition str := list char.

(** An ASCII literal as a Python string. *)
Fixpoint lit (s : String.string) : str :=
  match s with
  | String.EmptyString => []
  | String.String a s' => N_of_ascii a :: lit s'
  end.
Arguments lit s%_string.

Definition dquote : char := 34%N.

(** [q s] is the literal [s] between double quotes. *)
Definition q (s : String.string) : str := dquote :: lit s ++ [dquote].
Arguments q s%_string.

Fixpoint str_eqb (a b : str) : bool :=
  match a, b with
  | [], [] => true
  | x :: a', y :: b' => N.eqb x y && str_eqb a' b'
  | _, _ => false
  end.

(** [strip_prefix p s] is [Some r] when [s = p ++ r]
    (as in [s.startswith(p)] followed by [s[len(p):]]). *)
Fixpoint strip_prefix (p s : str) : option str :=
  match p, s with
  | [], _ => Some s
  | a :: p', b :: s' => if N.eqb a b then strip_prefix p' s' else None
  | _ :: _, [] => None
  end.

(** [partition sep s] cuts [s] at the first occurrence of [sep]
    (as [s.partition(sep)], [None] when [sep] does not occur). *)
Fixpoint partition (sep s : str) : option (str * str) :=
  match strip_prefix sep s with
  | Some post => Some ([], post)
  | None =>
      match s with
      | [] => None
      | c :: s' =>
          match partition sep s' with
          | Some (pre, post) => Some (c :: pre, post)
          | None => None
          end
      end
  end.

(** The piece of [s] before its first [sep], all of [s] without one. *)
Definition before (sep s : str) : str :=
  match partition sep s with
  | Some (pre, _) => pre
  | None => s
  end.

(** [sub in s]. *)
Definition contains (sub s : str) : bool :=
  match partition sub s with Some _ => true | None => false end.

(** [s.split(sep)] for a non-empty separator: cut at every occurrence, left
    to right, occurrences not overlapping.  The fuel is the length of [s]:
    every cut removes at least one character. *)
Fixpoint split_fuel (fuel : nat) (sep s : str) : list str :=
  match fuel with
  | O => [s]
  | S fuel' =>
      match partition sep s with
      | None => [s]
      | Some (pre, post) => pre :: split_fuel fuel' sep post
      end
  end.

Definition split (sep s : str) : list str := split_fuel (length s) sep s.

(** [str.isspace] on one code point: the characters [str.strip()] removes. *)
Definition isspace (c : char) : bool :=
  ((9 <=? c) && (c <=? 13) || (28 <=? c) && (c <=? 32)
   || (c =? 133) || (c =? 160) || (c =? 5760)
   || (8192 <=? c) && (c <=? 8202)
   || (c =? 8232) || (c =? 8233) || (c =? 8239) || (c =? 8287)
   || (c =? 12288))%N.

Fixpoint lstrip (s : str) : str :=
  match s with
  | [] => []
  | c :: s' => if isspace c then lstrip s' else s
  end.

Definition rstrip (s : str) : str := rev (lstrip (rev s)).

(** [s.strip()] *)
Definition strip (s : str) : str := rstrip (lstrip s).

(** [sep] occurs in [s] right after [pre]. *)
Definition occurs_at (sep s pre : str) : Prop :=
  exists post, s = pre ++ sep ++ post.

(** The first occurrence of [sep] in [s] lies between [pre] and [rest]. *)
Definition first_cut (sep s pre rest : str) : Prop :=
  s = pre ++ sep ++ rest /\
  forall pre', occurs_at sep s pre' -> length pre <= length pre'.

(** [body] is [s] cut at its first [sep], all of [s] when there is none. *)
Definition up_to (sep s body : str) : Prop :=
  (exists post, first_cut sep s body post) \/
  (body = s /\ forall pre, ~ occurs_at sep s pre).

End PyStr.

(** ** Python values and exceptions *)

Module Py.
Import PyStr.

(** The exception classes the handler can meet.  [CancelledError] derives
    from [BaseException] only; every other class derives from
    [Exception]; [JSONDecodeError] is a [ValueError]. *)
Inductive exn : Type :=
| IndexError
| KeyError
| ValueError
| JSONDecodeError
| AttributeError
| RecursionError
| ProviderError
| CancelledError.

(** [isinstance(e, Exception)] *)
Definition is_Exception (e : exn) : bool :=
  match e with CancelledError => false | _ => true end.

Inductive result (A : Type) : Type :=
| Ok (a : A)
| Raise (e : exn).
Arguments Ok {A} a.
Arguments Raise {A} e.

Definition bind {A B : Type} (r : result A) (k : A -> result B) : result B :=
  match r with Ok a => k a | Raise e => Raise e end.

(** A float as [json] reads it: the decimal [(-1)^neg * m * 10^e] written
    in the text, which Python rounds to the nearest double, or one of the
    constants [NaN], [Infinity], [-Infinity]. *)
Inductive pyfloat : Type :=
| FDec (neg : bool) (m : N) (e : Z)
| FNaN
| FInf (neg : bool).

(** The values [json.loads] builds. A [dict] keeps its keys in insertion
    order, each key once. *)
#[warnings="-register-all"]
Inductive pyval : Type :=
| PyNone
| PyBool (b : bool)
| PyInt (z : Z)
| PyFloat (f : pyfloat)
| PyStr (s : str)
| PyList (l : list pyval)
| PyDict (d : list (str * pyval)).

(** [d[k] = v] *)
Fixpoint dict_set (d : list (str * pyval)) (k : str) (v : pyval)
  : list (str * pyval) :=
  match d with
  | [] => [(k, v)]
  | (k', v') :: d' =>
      if str_eqb k' k then (k', v) :: d' else (k', v') :: dict_set d' k v
  end.

(** [dict(pairs)] *)
Definition dict_of_pairs (pairs : list (str * pyval)) : list (str * pyval) :=
  fold_left (fun d kv => dict_set d (fst kv) (snd kv)) pairs [].

Fixpoint dict_lookup (d : list (str * pyval)) (k : str) : option pyval :=
  match d with
  | [] => None
  | (k', v) :: d' => if str_eqb k' k then Some v else dict_lookup d' k
  end.

(** [obj.get(key, default)]: only a [dict] among the values above has the
    method, any other value raises [AttributeError]. *)
Definition get (obj : pyval) (key : str) (default : pyval) : result pyval :=
  match obj with
  | PyDict d =>
      match dict_lookup d key with
      | Some v => Ok v
      | None => Ok default
      end
  | _ => Raise AttributeError
  end.

(** A decimal rounds to the double [0.0] exactly when it is at most
    [2^-1075], half the least subnormal (ties go to the even mantissa). *)
Definition rounds_to_zero (m : N) (e : Z) : bool :=
  (m =? 0)%N ||
  ((e <? 0)%Z && (Z.of_N m * 2 ^ 1075 <=? 10 ^ (- e))%Z).

(** Truth value of a Python value, as [if v:] tests it. *)
Definition truthy (v : pyval) : bool :=
  match v with
  | PyNone => false
  | PyBool b => b
  | PyInt z => negb (z =? 0)%Z
  | PyFloat (FDec _ m e) => negb (rounds_to_zero m e)
  | PyFloat FNaN => true
  | PyFloat (FInf _) => true
  | PyStr s => match s with [] => false | _ => true end
  | PyList l => match l with [] => false | _ => true end
  | PyDict d => match d with [] => false | _ => true end
  end.

(** [l[i]] *)
Definition index {A : Type} (l : list A) (i : nat) : result A :=
  match nth_error l i with
  | Some x => Ok x
  | None => Raise IndexError
  end.

End Py.

(** ** What the interpreter supplies

    Some behaviour belongs to the interpreter that runs the plugin and is
    taken as given: [str.lower], whose Unicode case table is the
    interpreter's; the part of [str.format] beyond plain named fields
    (conversions, format specs, attribute and index access, numbered
    fields); the digit limit of [int] on a decimal string (zero for no
    limit); and how many containers deep the [json] scanner may still
    recurse when the handler calls it, which is at least one. *)

Module Interp.
Import PyStr Py.

Class Interpreter : Type := {
  lower : str -> str;
  format_beyond : str -> str -> bool -> str -> result str;
  int_max_str_digits : nat;
  max_nesting : nat;
  max_nesting_pos : 0 < max_nesting
}.

(** [str.lower] on ASCII text. *)
Definition ascii_lower (s : str) : str :=
  map (fun c => if (65 <=? c) && (c <=? 90) then c + 32 else c)%N s.

(** An interpreter with the default limits, for runs on ASCII text and
    templates with plain fields only. *)
Definition ascii_interpreter : Interpreter := {|
  lower := ascii_lower;
  format_beyond := fun _ _ _ _ => Raise ValueError;
  int_max_str_digits := 4300;
  max_nesting := 900;
  max_nesting_pos := Nat.lt_0_succ 899
|}.

End Interp.

(** ** The [json] decoder

    [json.loads] as the standard library's scanner reads a document:
    [scan_once] dispatches on the first character, [scanstring] reads a
    string in strict mode, the array and object readers read the
    containers.  A syntax error is a [JSONDecodeError]; an integer with
    more digits than the interpreter converts is a [ValueError]; a
    container nested deeper than the interpreter recurses is a
    [RecursionError]. *)

Module Json.
Import PyStr Py Interp.

Local Open Scope N_scope.

(** Why a scan stops without a value: a syntax error, a container too
    deep, an integer too long, or no fuel left. *)
Inductive stop : Type :=
| Invalid
| TooDeep
| TooLong
| Exhausted.

Inductive scan (A : Type) : Type :=
| Scanned (a : A) (rest : str)
| Stopped (why : stop).
Arguments Scanned {A} a rest.
Arguments Stopped {A} why.

(** The decoder's whitespace: space, tab, line feed, carriage return. *)
Definition is_ws (c : char) : bool :=
  (c =? 32) || (c =? 9) || (c =? 10) || (c =? 13).

Fixpoint skip_ws (s : str) : str :=
  match s with
  | [] => []
  | c :: s' => if is_ws c then skip_ws s' else s
  end.

Definition hex_digit (c : char) : option N :=
  if (48 <=? c) && (c <=? 57) then Some (c - 48)
  else if (97 <=? c) && (c <=? 102) then Some (c - 87)
  else if (65 <=? c) && (c <=? 70) then Some (c - 55)
  else None.

Definition hex4 (a b c d : char) : option N :=
  match hex_digit a, hex_digit b, hex_digit c, hex_digit d with
  | Some x, Some y, Some z, Some w => Some (((x * 16 + y) * 16 + z) * 16 + w)
  | _, _, _, _ => None
  end.

Definition is_high_surrogate (u : N) : bool := (55296 <=? u) && (u <=? 56319).
Definition is_low_surrogate (u : N) : bool := (56320 <=? u) && (u <=? 57343).
Definition join_surrogates (hi lo : N) : N :=
  65536 + (N.shiftl (hi - 55296) 10 + (lo - 56320)).

(** The character a one-letter escape stands for. *)
Definition simple_escape (e : char) : option char :=
  if e =? 34 then Some 34
  else if e =? 92 then Some 92
  else if e =? 47 then Some 47
  else if e =? 98 then Some 8
  else if e =? 102 then Some 12
  else if e =? 110 then Some 10
  else if e =? 114 then Some 13
  else if e =? 116 then Some 9
  else None.

(** [scanstring acc s]: [s] starts after the opening quote and [acc] holds
    the characters read so far, last first. *)
Fixpoint scanstring (acc : str) (s : str) : scan str :=
  match s with
  | [] => Stopped Invalid
  | c :: s1 =>
      if c =? 34 then Scanned (rev acc) s1
      else if c =? 92 then
        match s1 with
        | [] => Stopped Invalid
        | e :: s2 =>
            if e =? 117 then
              match s2 with
              | h1 :: h2 :: h3 :: h4 :: s3 =>
                  match hex4 h1 h2 h3 h4 with
                  | None => Stopped Invalid
                  | Some uni =>
                      match s3 with
                      | b :: u :: s4 =>
                          if is_high_surrogate uni && (b =? 92) && (u =? 117)
                          then
                            match s4 with
                            | l1 :: l2 :: l3 :: l4 :: s5 =>
                                match hex4 l1 l2 l3 l4 with
                                | None => Stopped Invalid
                                | Some uni2 =>
                                    if is_low_surrogate uni2
                                    then scanstring
                                           (join_surrogates uni uni2 :: acc) s5
                                    else scanstring (uni :: acc) s3
                                end
                            | _ => Stopped Invalid
                            end
                          else scanstring (uni :: acc) s3
                      | _ => scanstring (uni :: acc) s3
                      end
                  end
              | _ => Stopped Invalid
              end
            else
              match simple_escape e with
              | Some x => scanstring (x :: acc) s2
              | None => Stopped Invalid
              end
        end
      else if c <? 32 then Stopped Invalid
      else scanstring (c :: acc) s1
  end.

Definition is_digit (c : char) : bool := (48 <=? c) && (c <=? 57).

(** The longest run of decimal digits at the head of [s], and the rest. *)
Fixpoint take_digits (s : str) : list N * str :=
  match s with
  | [] => ([], [])
  | c :: s' =>
      if is_digit c
      then let (ds, r) := take_digits s' in (c - 48 :: ds, r)
      else ([], s)
  end.

Definition digits_value (ds : list N) : N :=
  fold_left (fun a d => 10 * a + d) ds 0.

(** The integer part of a number: an optional minus sign, then either a
    single zero or a non-zero digit followed by any digits. *)
Definition match_integer (s : str) : option (bool * list N * str) :=
  let (neg, s1) :=
    match s with
    | c :: s' => if c =? 45 then (true, s') else (false, s)
    | [] => (false, s)
    end in
  match s1 with
  | [] => None
  | c :: s2 =>
      if c =? 48 then Some (neg, [0], s2)
      else if is_digit c then
        let (ds, r) := take_digits s1 in Some (neg, ds, r)
      else None
  end.

(** The optional fraction, a dot and at least one digit: its digits, and
    the rest. *)
Definition match_frac (s : str) : option (list N) * str :=
  match s with
  | c :: s1 =>
      if c =? 46 then
        match take_digits s1 with
        | ([], _) => (None, s)
        | (fs, r) => (Some fs, r)
        end
      else (None, s)
  | [] => (None, s)
  end.

(** The optional exponent, [e] or [E], an optional sign and at least one
    digit: its value, and the rest. *)
Definition match_exp (s : str) : option Z * str :=
  match s with
  | c :: s1 =>
      if (c =? 101) || (c =? 69) then
        let (eneg, s2) :=
          match s1 with
          | g :: s' =>
              if g =? 45 then (true, s')
              else if g =? 43 then (false, s')
              else (false, s1)
          | [] => (false, s1)
          end in
        match take_digits s2 with
        | ([], _) => (None, s)
        | (es, r) =>
            let v := Z.of_N (digits_value es) in
            (Some (if eneg then (- v)%Z else v), r)
        end
      else (None, s)
  | [] => (None, s)
  end.

(** The three groups of the number pattern, and the rest. *)
Definition match_number (s : str)
  : option (bool * list N * option (list N) * option Z * str) :=
  match match_integer s with
  | None => None
  | Some (neg, ds, r0) =>
      let (frac, r1) := match_frac r0 in
      let (exp, r2) := match_exp r1 in
      Some (neg, ds, frac, exp, r2)
  end.

Section Limits.
Context {I : Interpreter}.

(** [int] refuses a decimal string of more than 640 digits when a limit
    is set and the string has more digits than the limit. *)
Definition over_digit_limit (ndigits : nat) : bool :=
  (640 <? ndigits)%nat && (0 <? int_max_str_digits)%nat
  && (int_max_str_digits <? ndigits)%nat.

(** A number: an [int] when it has neither fraction nor exponent, a
    [float] otherwise. *)
Definition number_value (neg : bool) (ds : list N) (frac : option (list N))
           (exp : option Z) : option pyval :=
  match frac, exp with
  | None, None =>
      if over_digit_limit (length ds) then None
      else
        let v := Z.of_N (digits_value ds) in
        Some (PyInt (if neg then (- v)%Z else v))
  | _, _ =>
      let fs := match frac with Some fs => fs | None => [] end in
      let e := match exp with Some e => e | None => 0%Z end in
      Some (PyFloat (FDec neg (digits_value (ds ++ fs))
                          (e - Z.of_nat (length fs))))
  end.

(** The literals tried after strings and containers, in the scanner's order. *)
Definition scan_atom (s : str) : scan pyval :=
  match strip_prefix (lit "null") s with
  | Some r => Scanned PyNone r
  | None =>
  match strip_prefix (lit "true") s with
  | Some r => Scanned (PyBool true) r
  | None =>
  match strip_prefix (lit "false") s with
  | Some r => Scanned (PyBool false) r
  | None =>
  match match_number s with
  | Some (neg, ds, frac, exp, r) =>
      match number_value neg ds frac exp with
      | Some v => Scanned v r
      | None => Stopped TooLong
      end
  | None =>
  match strip_prefix (lit "NaN") s with
  | Some r => Scanned (PyFloat FNaN) r
  | None =>
  match strip_prefix (lit "Infinity") s with
  | Some r => Scanned (PyFloat (FInf false)) r
  | None =>
  match strip_prefix (lit "-Infinity") s with
  | Some r => Scanned (PyFloat (FInf true)) r
  | None => Stopped Invalid
  end end end end end end end.

(** [scan_once] reads one value; [array_items] reads the items of an array
    from its first value on; [object_members] reads the members of an
    object from just after the opening quote of a key.  [depth] is how
    many containers may still be entered; each call spends one unit of
    [fuel]. *)
Fixpoint scan_once (fuel depth : nat) (s : str) : scan pyval :=
  match fuel with
  | O => Stopped Exhausted
  | S fuel' =>
      match s with
      | [] => Stopped Invalid
      | c :: s1 =>
          if c =? 34 then
            match scanstring [] s1 with
            | Scanned x r => Scanned (PyStr x) r
            | Stopped w => Stopped w
            end
          else if c =? 123 then
            match depth with
            | O => Stopped TooDeep
            | S depth' =>
                match skip_ws s1 with
                | c1 :: r =>
                    if c1 =? 125 then Scanned (PyDict []) r
                    else if c1 =? 34 then object_members fuel' depth' [] r
                    else Stopped Invalid
                | [] => Stopped Invalid
                end
            end
          else if c =? 91 then
            match depth with
            | O => Stopped TooDeep
            | S depth' =>
                match skip_ws s1 with
                | c1 :: r =>
                    if c1 =? 93 then Scanned (PyList []) r
                    else array_items fuel' depth' [] (c1 :: r)
                | [] => Stopped Invalid
                end
            end
          else scan_atom s
      end
  end

with array_items (fuel depth : nat) (acc : list pyval) (s : str)
  : scan pyval :=
  match fuel with
  | O => Stopped Exhausted
  | S fuel' =>
      match scan_once fuel' depth s with
      | Scanned v r =>
          match skip_ws r with
          | c :: r1 =>
              if c =? 93 then Scanned (PyList (rev (v :: acc))) r1
              else if c =? 44
              then array_items fuel' depth (v :: acc) (skip_ws r1)
              else Stopped Invalid
          | [] => Stopped Invalid
          end
      | Stopped w => Stopped w
      end
  end

with object_members (fuel depth : nat) (acc : list (str * pyval)) (s : str)
  : scan pyval :=
  match fuel with
  | O => Stopped Exhausted
  | S fuel' =>
      match scanstring [] s with
      | Scanned key r =>
          match skip_ws r with
          | c :: r1 =>
              if c =? 58 then
                match scan_once fuel' depth (skip_ws r1) with
                | Scanned v r2 =>
                    match skip_ws r2 with
                    | c2 :: r3 =>
                        if c2 =? 125 then
                          Scanned (PyDict (dict_of_pairs (rev ((key, v) :: acc))))
                                  r3
                        else if c2 =? 44 then
                          match skip_ws r3 with
                          | c3 :: r4 =>
                              if c3 =? 34
                              then object_members fuel' depth
                                                  ((key, v) :: acc) r4
                              else Stopped Invalid
                          | [] => Stopped Invalid
                          end
                        else Stopped Invalid
                    | [] => Stopped Invalid
                    end
                | Stopped w => Stopped w
                end
              else Stopped Invalid
          | [] => Stopped Invalid
          end
      | Stopped w => Stopped w
      end
  end.

(** The exception a stopped scan raises.  The fuel given by [loads] never
    runs out. *)
Definition exn_of_stop (w : stop) : exn :=
  match w with
  | Invalid => JSONDecodeError
  | TooDeep => RecursionError
  | TooLong => ValueError
  | Exhausted => RecursionError
  end.

(** The exceptions [json.loads] raises. *)
Definition decoding_error (e : exn) : Prop :=
  e = JSONDecodeError \/ e = ValueError \/ e = RecursionError.

(** [json.loads(s)]: a leading byte-order mark is refused, whitespace is
    allowed around the one value, anything after it is an error. *)
Definition loads (s : str) : result pyval :=
  match s with
  | 65279 :: _ => Raise JSONDecodeError
  | _ =>
      match scan_once (2 * length s + 2) max_nesting (skip_ws s) with
      | Scanned v r =>
          match skip_ws r with
          | [] => Ok v
          | _ :: _ => Raise JSONDecodeError
          end
      | Stopped w => Raise (exn_of_stop w)
      end
  end.

End Limits.

End Json.

(** ** [str.format] with the three keyword arguments of the handler *)

Module Format.
Import PyStr Py Interp.

Local Open Scope N_scope.

Inductive rendering : Type :=
| Rendered (s : str)
| Failed (e : exn)
| Beyond.

Definition lbrace : char := 123.
Definition rbrace : char := 125.

(** A character of a plain field name: an ASCII letter, digit or underscore. *)
Definition is_name_char (c : char) : bool :=
  (97 <=? c) && (c <=? 122) || (65 <=? c) && (c <=? 90)
  || (48 <=? c) && (c <=? 57) || (c =? 95).

Definition is_decimal (c : char) : bool := (48 <=? c) && (c <=? 57).

(** [str(b)] *)
Definition str_of_bool (b : bool) : str :=
  if b then lit "True" else lit "False".

(** The value of a complete plain field name.  The empty name is an
    automatically numbered field, and there is no positional argument;
    a name starting with a digit is left to the interpreter. *)
Definition field_value (name user_message : str) (is_at : bool)
           (history : str) : rendering :=
  match name with
  | [] => Failed IndexError
  | c :: _ =>
      if is_decimal c then Beyond
      else if str_eqb name (lit "user_message") then Rendered user_message
      else if str_eqb name (lit "is_at") then Rendered (str_of_bool is_at)
      else if str_eqb name (lit "history") then Rendered history
      else Failed KeyError
  end.

(** [render t field out]: [t] is what is left of the template, [field] is
    [Some n] inside a replacement field whose name so far is [n] (last
    character first), [out] is the output so far (last character first).
    Doubled braces are literal braces; a lone closing brace, a lone opening
    brace at the end, an opening brace inside a field and a field left
    open are [ValueError]s. *)
Fixpoint render (user_message : str) (is_at : bool) (history : str)
         (t : str) (field : option str) (out : str) : rendering :=
  match t with
  | [] =>
      match field with
      | None => Rendered (rev out)
      | Some _ => Failed ValueError
      end
  | c :: t1 =>
      match field with
      | None =>
          if c =? lbrace then
            match t1 with
            | [] => Failed ValueError
            | c1 :: t2 =>
                if c1 =? lbrace
                then render user_message is_at history t2 None (lbrace :: out)
                else render user_message is_at history t1 (Some []) out
            end
          else if c =? rbrace then
            match t1 with
            | [] => Failed ValueError
            | c1 :: t2 =>
                if c1 =? rbrace
                then render user_message is_at history t2 None (rbrace :: out)
                else Failed ValueError
            end
          else render user_message is_at history t1 None (c :: out)
      | Some name =>
          if c =? rbrace then
            match field_value (rev name) user_message is_at history with
            | Rendered v =>
                render user_message is_at history t1 None (rev v ++ out)
            | Failed e => Failed e
            | Beyond => Beyond
            end
          else if c =? lbrace then Failed ValueError
          else if is_name_char c
          then render user_message is_at history t1 (Some (c :: name)) out
          else Beyond
      end
  end.

(** [template.format(user_message=..., is_at=..., history=...)] *)
Definition format {I : Interpreter} (template user_message : str) (is_at : bool)
           (history : str) : result str :=
  match render user_message is_at history template None [] with
  | Rendered s => Ok s
  | Failed e => Raise e
  | Beyond => format_beyond template user_message is_at history
  end.

End Format.

(** ** The plugin *)

Module Plugin.
Import PyStr Py Interp.

(** [DEFAULT_DECISION_PROMPT] *)
Definition DEFAULT_DECISION_PROMPT : str :=
(
  [10; 20320; 26159; 19968; 20010; 21517; 20026; 65; 115; 116; 114; 66;
   111; 116; 30340; 65; 73; 21161; 25163; 30340; 20915; 31574; 26680;
   24515; 12290; 20320; 30340; 20219; 21153; 26159; 21028; 26029; 26159;
   21542; 24212; 35813; 23545; 29992; 25143; 30340; 28040; 24687; 36827;
   34892; 22238; 22797; 12290; 10; 10; 20320; 38656; 35201; 20998; 26512;
   20197; 19979; 20449; 24687; 65306; 10; 49; 46; 32; 32; 42; 42; 29992;
   25143; 28040; 24687; 42; 42; 58; 32; 123; 117; 115; 101; 114; 95; 109;
   101; 115; 115; 97; 103; 101; 125; 10; 50; 46; 32; 32; 42; 42; 26159;
   21542; 64; 26426; 22120; 20154; 42; 42; 58; 32; 123; 105; 115; 95; 97;
   116; 125; 10; 51; 46; 32; 32; 42; 42; 21382; 21490; 23545; 35805; 65288;
   22914; 26524; 21487; 29992; 65289; 42; 42; 58; 32; 123; 104; 105; 115;
   116; 111; 114; 121; 125; 10; 10; 20320; 30340; 20915; 31574; 21407;
   21017; 26159; 65306; 10; 45; 32; 32; 32; 42; 42; 30452; 25509; 25552;
   38382; 25110; 25351; 20196; 42; 42; 58; 32; 22914; 26524; 29992; 25143;
   26126; 30830; 21521; 26426; 22120; 20154; 25552; 38382; 25110; 21457;
   20986; 25351; 20196; 65292; 24212; 35813; 22238; 22797; 12290; 10; 45;
   32; 32; 32; 42; 42; 23547; 27714; 24110; 21161; 42; 42; 58; 32; 22914;
   26524; 29992; 25143; 34920; 29616; 20986; 38656; 35201; 24110; 21161;
   30340; 24847; 22270; 65292; 24212; 35813; 22238; 22797; 12290; 10; 45;
   32; 32; 32; 42; 42; 38386; 32842; 47; 25645; 35805; 42; 42; 58; 32;
   22914; 26524; 29992; 25143; 21482; 26159; 24819; 38386; 32842; 65292;
   24182; 19988; 35805; 39064; 26377; 36259; 25110; 31215; 26497; 65292;
   21487; 20197; 32771; 34385; 22238; 22797; 20197; 22686; 24378; 20114;
   21160; 12290; 10; 45; 32; 32; 32; 42; 42; 26080; 24847; 20041; 25110;
   36127; 38754; 20869; 23481; 42; 42; 58; 32; 22914; 26524; 29992; 25143;
   28040; 24687; 26080; 24847; 20041; 12289; 21547; 31946; 19981; 28165;
   12289; 26159; 22403; 22334; 20449; 24687; 25110; 36127; 38754; 20869;
   23481; 65292; 21017; 19981; 24212; 22238; 22797; 12290; 10; 45; 32; 32;
   32; 42; 42; 21482; 26159; 22312; 35752; 35770; 26426; 22120; 20154; 42;
   42; 58; 32; 22914; 26524; 29992; 25143; 21482; 26159; 22312; 31532;
   19977; 26041; 35270; 35282; 35752; 35770; 26426; 22120; 20154; 65292;
   32780; 19981; 26159; 30452; 25509; 19982; 26426; 22120; 20154; 20114;
   21160; 65292; 36890; 24120; 19981; 38656; 35201; 22238; 22797; 12290;
   10; 10; 35831; 20197; 74; 83; 79; 78; 26684; 24335; 36755; 20986; 20320;
   30340; 20915; 31574; 65292; 21253; 21547; 20004; 20010; 23383; 27573;
   65306; 10; 45; 32; 32; 32; 96; 115; 104; 111; 117; 108; 100; 95; 114;
   101; 112; 108; 121; 96; 32; 40; 98; 111; 111; 108; 101; 97; 110; 41; 58;
   32; 96; 116; 114; 117; 101; 96; 32; 34920; 31034; 24212; 35813; 22238;
   22797; 44; 32; 96; 102; 97; 108; 115; 101; 96; 32; 34920; 31034; 19981;
   24212; 22238; 22797; 12290; 10; 45; 32; 32; 32; 96; 114; 101; 97; 115;
   111; 110; 105; 110; 103; 96; 32; 40; 115; 116; 114; 105; 110; 103; 41;
   58; 32; 35299; 37322; 20320; 20570; 20986; 36825; 20010; 20915; 31574;
   30340; 35814; 32454; 24605; 32771; 36807; 31243; 12290; 10; 10; 45; 45;
   45; 10; 29992; 25143; 28040; 24687; 58; 32; 34; 123; 117; 115; 101; 114;
   95; 109; 101; 115; 115; 97; 103; 101; 125; 34; 10; 45; 45; 45; 10;
   20320; 30340; 20915; 31574; 32; 40; 74; 83; 79; 78; 26684; 24335; 41;
   58; 10]
)%N.

(** The filler used when the decision has no [reasoning] field. *)
Definition NO_REASONING : str := [26080; 24605; 32771; 36807; 31243; 12290]%N.

Definition fence : str := lit "```".
Definition fence_json : str := lit "```json".

(** *** The host: configuration and list objects

    The configuration is the host's dictionary; each key may be absent.
    A list value is an object: the configuration holds a reference to it,
    and so does whoever read it from there. *)

Definition loc := nat.
Definition heap := list (list str).

Definition deref (h : heap) (l : loc) : list str := nth l h [].

Record AstrBotConfig : Type := {
  cfg_enabled : option bool;
  cfg_trigger_keywords : option loc;
  cfg_decision_making_prompt : option str
}.

Record Host : Type := {
  config : AstrBotConfig;
  lists : heap
}.

(** [d.get(key, default)] on an entry of the configuration *)
Definition get_or {A : Type} (entry : option A) (default : A) : A :=
  match entry with Some v => v | None => default end.

Record AstrMessageEvent : Type := {
  is_at_or_wake_command : bool;
  message_str : str
}.

(** The provider's answer: [None] stands for Python's [None]. *)
Record LLMResponse : Type := {
  completion_text : option str
}.

(** What evaluating
    [self.context.get_using_provider().text_chat(prompt=prompt)] does.
    Either the call is made, and returns a response (or [None]) or raises;
    or no call is made because the provider cannot be obtained:
    [get_using_provider()] raises, or it returns [None] and looking up
    [text_chat] on it raises [AttributeError]. *)
Inductive call_result : Type :=
| Returns (r : option LLMResponse)
| Raises (e : exn)
| Unavailable (e : exn).

Definition provider := str -> call_result.

(** The call was made. *)
Definition is_called (c : call_result) : bool :=
  match c with
  | Unavailable _ => false
  | _ => true
  end.

(** *** Effects *)

Inductive log_line : Type :=
| MsgLoaded
| MsgReceived (message_text : str)
| MsgLLMFailed
| MsgParseFailed (e : exn) (decision_json_str : str)
| MsgThinking
| MsgReasoning (reasoning : pyval)
| MsgIntent (should_reply : bool)
| MsgWillReply
| MsgWillNotReply
| MsgUnknownError (e : exn)
| MsgUnloaded.

Inductive action : Type :=
| LogInfo (l : log_line)
| LogError (l : log_line)
| StopEvent
| TextChat (prompt : str)
| RequestLLM (prompt : str).

Inductive outcome : Type :=
| Returned
| Propagated (e : exn).

(** Code that logs, calls out and may raise: the actions so far and the
    result. *)
Definition M (A : Type) : Type := list action * result A.

Definition raise {A : Type} (e : exn) : M A := ([], Raise e).

Definition tell (l : list action) : M unit := (l, Ok tt).

Definition lift {A : Type} (r : result A) : M A := ([], r).

Definition mbind {A B : Type} (m : M A) (k : A -> M B) : M B :=
  match m with
  | (t, Ok a) => let (t', r) := k a in (t ++ t', r)
  | (t, Raise e) => (t, Raise e)
  end.

Notation "x <- m ;; k" := (mbind m (fun x => k))
  (at level 61, m at next level, right associativity).
Notation "m ;;; k" := (mbind m (fun _ => k))
  (at level 61, right associativity).

(** *** The plugin object

    [self.config] is the host's configuration object itself, so the
    handler is given the host as it is when the message arrives; the
    other three attributes are the plugin's own. *)

Record BetterAutoReplyPlugin : Type := {
  enabled : bool;
  trigger_keywords : loc;
  decision_prompt_template : str
}.

(** [__init__]: the three settings are read from the configuration; the
    default for the keywords is a fresh empty list. *)
Definition init (h : Host) : Host * BetterAutoReplyPlugin * list action :=
  let fresh := length (lists h) in
  ({| config := config h; lists := lists h ++ [[]] |},
   {| enabled := get_or (cfg_enabled (config h)) true;
      trigger_keywords := get_or (cfg_trigger_keywords (config h)) fresh;
      decision_prompt_template :=
        get_or (cfg_decision_making_prompt (config h)) DEFAULT_DECISION_PROMPT |},
   [LogInfo MsgLoaded]).

Definition plugin_of (r : Host * BetterAutoReplyPlugin * list action)
  : BetterAutoReplyPlugin := snd (fst r).

Definition host_of (r : Host * BetterAutoReplyPlugin * list action) : Host :=
  fst (fst r).

(** *** Extraction of the decision *)

Record Decision : Type := {
  should_reply : pyval;
  reasoning : pyval
}.

(** The slicing of a fenced block out of the model's text. *)
Definition slice_fenced (decision_json_str : str) : result str :=
  if contains fence_json decision_json_str then
    bind (index (split fence_json decision_json_str) 1) (fun after =>
    bind (index (split fence after) 0) (fun block =>
    Ok (strip block)))
  else if contains fence decision_json_str then
    bind (index (split fence decision_json_str) 1) (fun block =>
    Ok (strip block))
  else Ok decision_json_str.

(** [except (json.JSONDecodeError, IndexError)] *)
Definition caught_by_inner (e : exn) : bool :=
  match e with
  | JSONDecodeError | IndexError => true
  | _ => false
  end.

(** *** The handler *)

(** [not decision_response or not decision_response.completion_text] fails
    exactly on a response with a non-empty completion text. *)
Definition usable (decision_response : option LLMResponse) : option str :=
  match decision_response with
  | Some r =>
      match completion_text r with
      | Some (c :: s) => Some (c :: s)
      | _ => None
      end
  | None => None
  end.

(** [await self.context.get_using_provider().text_chat(prompt=prompt)]:
    a call that is made is recorded with its prompt, whether it returns
    or raises; when the provider cannot be obtained the exception is
    raised and no call is recorded. *)
Definition text_chat (p : provider) (prompt : str)
  : M (option LLMResponse) :=
  match p prompt with
  | Returns r => ([TextChat prompt], Ok r)
  | Raises e => ([TextChat prompt], Raise e)
  | Unavailable e => ([], Raise e)
  end.

Section Handler.
Context {I : Interpreter}.

(** [json.loads] and the two [get]s. *)
Definition read_decision (decision_json_str : str) : result Decision :=
  bind (Json.loads decision_json_str) (fun decision =>
  bind (get decision (lit "should_reply") (PyBool false)) (fun sr =>
  bind (get decision (lit "reasoning") (PyStr NO_REASONING)) (fun rs =>
  Ok {| should_reply := sr; reasoning := rs |}))).

(** The body of the inner [try]: the final value of [decision_json_str]
    (reassigned only when the slicing completes) and the result. *)
Definition extract (completion_text : str) : str * result Decision :=
  match slice_fenced completion_text with
  | Ok s => (s, read_decision s)
  | Raise e => (completion_text, Raise e)
  end.

(** [any(keyword.lower() in message_text.lower() for keyword in keywords)] *)
Definition is_triggered_by_keyword (keywords : list str) (message_text : str)
  : bool :=
  existsb (fun keyword => contains (lower keyword) (lower message_text))
          keywords.

(** The body of the outer [try]. *)
Definition decide_and_reply (self : BetterAutoReplyPlugin)
           (message_text : str) (is_at : bool) (p : provider) : M unit :=
  let history := lit "N/A" in
  prompt <- lift (Format.format (decision_prompt_template self)
                                message_text is_at history) ;;
  decision_response <- text_chat p prompt ;;
  match usable decision_response with
  | None => tell [LogError MsgLLMFailed]
  | Some text =>
      let (decision_json_str, r) := extract text in
      match r with
      | Raise e =>
          if caught_by_inner e
          then tell [LogError (MsgParseFailed e decision_json_str)]
          else raise e
      | Ok d =>
          tell [LogInfo MsgThinking;
                LogInfo (MsgReasoning (reasoning d));
                LogInfo (MsgIntent (truthy (should_reply d)))] ;;;
          if truthy (should_reply d)
          then tell [LogInfo MsgWillReply; RequestLLM message_text]
          else tell [LogInfo MsgWillNotReply]
      end
  end.

(** [group_message_handler]: the plugin afterwards, the actions in order,
    and how the call ended. *)
Definition group_message_handler (host : Host) (self : BetterAutoReplyPlugin)
           (event : AstrMessageEvent) (p : provider)
  : BetterAutoReplyPlugin * list action * outcome :=
  let self := {| enabled := get_or (cfg_enabled (config host)) true;
                 trigger_keywords := trigger_keywords self;
                 decision_prompt_template := decision_prompt_template self |} in
  if negb (enabled self) then (self, [], Returned)
  else
    let is_at := is_at_or_wake_command event in
    let message_text := strip (message_str event) in
    let by_keyword :=
      is_triggered_by_keyword (deref (lists host) (trigger_keywords self))
                              message_text in
    if negb is_at && negb by_keyword then (self, [], Returned)
    else
      let start := [LogInfo (MsgReceived message_text); StopEvent] in
      match decide_and_reply self message_text is_at p with
      | (t, Ok _) => (self, start ++ t, Returned)
      | (t, Raise e) =>
          if is_Exception e
          then (self, start ++ t ++ [LogError (MsgUnknownError e)], Returned)
          else (self, start ++ t, Propagated e)
      end.

(** Some configured keyword occurs in the text, case set aside. *)
Definition keyword_match (keywords : list str) (message_text : str) : Prop :=
  exists keyword,
    In keyword keywords /\
    exists pre, occurs_at (lower keyword) (lower message_text) pre.

End Handler.

(** [terminate] *)
Definition terminate (self : BetterAutoReplyPlugin) : list action :=
  [LogInfo MsgUnloaded].

(** The prompts of the reply requests in a trace. *)
Fixpoint requests (t : list action) : list str :=
  match t with
  | [] => []
  | RequestLLM prompt :: t' => prompt :: requests t'
  | _ :: t' => requests t'
  end.

(** The prompts of the model calls in a trace. *)
Fixpoint model_calls (t : list action) : list str :=
  match t with
  | [] => []
  | TextChat prompt :: t' => prompt :: model_calls t'
  | _ :: t' => model_calls t'
  end.

Definition stops_event (t : list action) : bool :=
  existsb (fun a => match a with StopEvent => true | _ => false end) t.

Definition trace_of (r : BetterAutoReplyPlugin * list action * outcome)
  : list action := snd (fst r).

Definition outcome_of (r : BetterAutoReplyPlugin * list action * outcome)
  : outcome := snd r.

Definition self_of (r : BetterAutoReplyPlugin * list action * outcome)
  : BetterAutoReplyPlugin := fst (fst r).

End Plugin.

(** ** Sample inputs *)

Module Samples.
Import PyStr Py Interp Plugin.

Definition nl : str := [10%N].

(** The text of a decision object with both fields. *)
Definition decision_json (flag why : string) : str :=
  lit "{" ++ q "should_reply" ++ lit ": " ++ lit flag ++ lit ", "
      ++ q "reasoning" ++ lit ": " ++ q why ++ lit "}".

Definition tagged_x : str :=
  fence_json ++ nl ++ decision_json "true" "x" ++ nl ++ fence.

Definition untagged_y : str :=
  fence ++ nl ++ decision_json "false" "y" ++ nl ++ fence.

Definition bare_z : str := decision_json "true" "z".

Definition no_flag : str :=
  lit "{" ++ q "reasoning" ++ lit ": " ++ q "no flag given" ++ lit "}".

(** One fence marker and no closing one. *)
Definition unclosed : str := fence ++ decision_json "true" "u".

(** Two JSON-tagged markers, a backquote right before the second. *)
Definition retagged : str :=
  fence_json ++ lit "1`" ++ fence_json ++ lit "2".

(** A provider that always answers [text]. *)
Definition answers (text : str) : provider :=
  fun _ => Returns (Some {| completion_text := Some text |}).

(** A host with the plugin enabled, no keyword setting and the given
    template setting. *)
Definition host_with (template : option str) : Host :=
  {| config := {| cfg_enabled := Some true;
                  cfg_trigger_keywords := None;
                  cfg_decision_making_prompt := template |};
     lists := [] |}.

(** The same host with the plugin switched off. *)
Definition host_off : Host :=
  {| config := {| cfg_enabled := Some false;
                  cfg_trigger_keywords := None;
                  cfg_decision_making_prompt := None |};
     lists := [] |}.

(** A host whose keyword setting is the list object [[keyword]]. *)
Definition host_keyword (keyword : str) : Host :=
  {| config := {| cfg_enabled := Some true;
                  cfg_trigger_keywords := Some 0;
                  cfg_decision_making_prompt := Some (lit "{user_message}") |};
     lists := [[keyword]] |}.

(** A provider that answers with no response, and one that raises. *)
Definition silent : provider := fun _ => Returns None.
Definition failing : provider := fun _ => Raises ProviderError.

(** No provider in use: [get_using_provider()] returns [None]. *)
Definition absent : provider := fun _ => Unavailable AttributeError.

Definition addressed (text : str) : AstrMessageEvent :=
  {| is_at_or_wake_command := true; message_str := text |}.

Definition unaddressed (text : str) : AstrMessageEvent :=
  {| is_at_or_wake_command := false; message_str := text |}.

End Samples.

(** ** Vocabulary for the properties of the handler *)

Module Shapes.
Import PyStr Py Interp Format Plugin.

(** Only whitespace, as [str.strip] sees it. *)
Definition all_space (s : str) : bool := forallb isspace s.

Definition starts_with_space (s : str) : bool :=
  match s with
  | c :: _ => isspace c
  | [] => false
  end.

Definition ends_with_space (s : str) : bool := starts_with_space (rev s).

(** No character of [s] is [c]. *)
Definition lacks (c : char) (s : str) : bool :=
  forallb (fun x => negb (N.eqb x c)) s.

Definition backquote : char := 96%N.

(** [s] starts with the character [c]. *)
Definition starts_with (c : char) (s : str) : bool :=
  match s with
  | x :: _ => N.eqb x c
  | [] => false
  end.

(** A template made of literal text and the three fields the handler
    supplies. *)
Inductive piece : Type :=
| Text (l : str)
| UserMessage
| IsAt
| History.

Definition brace_free (l : str) : bool := lacks lbrace l && lacks rbrace l.

Definition piece_ok (x : piece) : bool :=
  match x with
  | Text l => brace_free l
  | _ => true
  end.

Definition piece_template (x : piece) : str :=
  match x with
  | Text l => l
  | UserMessage => lit "{user_message}"
  | IsAt => lit "{is_at}"
  | History => lit "{history}"
  end.

Definition template_of (ps : list piece) : str :=
  concat (map piece_template ps).

Definition piece_value (user_message : str) (is_at : bool) (history : str)
           (x : piece) : str :=
  match x with
  | Text l => l
  | UserMessage => user_message
  | IsAt => str_of_bool is_at
  | History => history
  end.

Definition filled (ps : list piece) (user_message : str) (is_at : bool)
           (history : str) : str :=
  concat (map (piece_value user_message is_at history) ps).

(** A field name written with letters, digits and underscores, not
    starting with a digit, that is none of the three keys. *)
Definition unknown_name (name : str) : bool :=
  forallb is_name_char name
  && match name with
     | c :: _ => negb (is_decimal c)
     | [] => false
     end
  && negb (str_eqb name (lit "user_message"))
  && negb (str_eqb name (lit "is_at"))
  && negb (str_eqb name (lit "history")).

(** The value of the last pair with key [k], if any. *)
Definition last_value (pairs : list (str * pyval)) (k : str) : option pyval :=
  match find (fun kv => str_eqb (fst kv) k) (rev pairs) with
  | Some kv => Some (snd kv)
  | None => None
  end.

(** The error lines of a trace. *)
Fixpoint errors (t : list action) : list log_line :=
  match t with
  | [] => []
  | LogError l :: t' => l :: errors t'
  | _ :: t' => errors t'
  end.

(** The actions of a run after the event is stopped, and how the call
    ends: the template fails to render or the provider cannot be
    obtained, the call or the reading of the answer fails, the provider
    gives nothing usable, the answer is not
    valid JSON, the decision is not to reply, the decision is to reply,
    or an exception that is not an [Exception] escapes. *)
Inductive ending (message_text : str) : list action -> outcome -> Prop :=
| EndRenderFailed (e : exn) :
    is_Exception e = true ->
    ending message_text [LogError (MsgUnknownError e)] Returned
| EndUnknownError (prompt : str) (e : exn) :
    is_Exception e = true ->
    ending message_text
           [TextChat prompt; LogError (MsgUnknownError e)] Returned
| EndNoAnswer (prompt : str) :
    ending message_text [TextChat prompt; LogError MsgLLMFailed] Returned
| EndParseFailed (prompt s : str) :
    ending message_text
           [TextChat prompt; LogError (MsgParseFailed JSONDecodeError s)]
           Returned
| EndSilent (prompt : str) (why : pyval) :
    ending message_text
           [TextChat prompt; LogInfo MsgThinking; LogInfo (MsgReasoning why);
            LogInfo (MsgIntent false); LogInfo MsgWillNotReply] Returned
| EndReply (prompt : str) (why : pyval) :
    ending message_text
           [TextChat prompt; LogInfo MsgThinking; LogInfo (MsgReasoning why);
            LogInfo (MsgIntent true); LogInfo MsgWillReply;
            RequestLLM message_text] Returned
| EndEscapedEarly (e : exn) :
    is_Exception e = false ->
    ending message_text [] (Propagated e)
| EndEscaped (prompt : str) (e : exn) :
    is_Exception e = false ->
    ending message_text [TextChat prompt] (Propagated e).

End Shapes.

(** ** Facts about cutting and splitting *)

Module PyStrFacts.
Import PyStr.

Lemma strip_prefix_Some (p s r : str) :
  strip_prefix p s = Some r <-> s = p ++ r.
Proof.
  revert s; induction p as [|a p IH]; intros s; simpl.
  - split; [intros [= ->] | intros ->]; reflexivity.
  - destruct s as [|b s]; [split; discriminate|].
    destruct (N.eqb_spec a b) as [->|Hne].
    + rewrite IH. split; [intros ->; reflexivity | intros [= ->]; reflexivity].
    + split; [discriminate | intros [= E _]; congruence].
Qed.

Lemma strip_prefix_app (p r : str) : strip_prefix p (p ++ r) = Some r.
Proof. apply strip_prefix_Some; reflexivity. Qed.

Lemma partition_Some (sep s pre post : str) :
  partition sep s = Some (pre, post) ->
  s = pre ++ sep ++ post /\
  (forall pre', occurs_at sep s pre' -> length pre <= length pre').
Proof.
  revert pre post; induction s as [|c s IH]; intros pre post; simpl.
  - destruct (strip_prefix sep []) as [r|] eqn:E; [|discriminate].
    intros [= <- <-]. apply strip_prefix_Some in E.
    split; [exact E | intros; simpl; lia].
  - destruct (strip_prefix sep (c :: s)) as [r|] eqn:E.
    + intros [= <- <-]. apply strip_prefix_Some in E.
      split; [exact E | intros; simpl; lia].
    + destruct (partition sep s) as [[pre0 post0]|] eqn:P; [|discriminate].
      intros [= <- <-]. destruct (IH _ _ eq_refl) as [-> Hmin].
      split; [reflexivity|].
      intros pre' [post' H']. destruct pre' as [|c' pre'].
      * simpl in H'. rewrite H', strip_prefix_app in E. discriminate.
      * simpl in H'. injection H' as _ H'. simpl.
        apply le_n_S, Hmin. exists post'. exact H'.
Qed.

Lemma partition_None (sep s : str) :
  partition sep s = None -> forall pre, ~ occurs_at sep s pre.
Proof.
  induction s as [|c s IH]; simpl.
  - destruct (strip_prefix sep []) as [r|] eqn:E; [discriminate|].
    intros _ pre [post H]. destruct pre; simpl in H.
    + rewrite H, strip_prefix_app in E. discriminate.
    + discriminate.
  - destruct (strip_prefix sep (c :: s)) as [r|] eqn:E; [discriminate|].
    destruct (partition sep s) as [[pre0 post0]|] eqn:P; [discriminate|].
    intros _ pre [post H]. destruct pre as [|c' pre]; simpl in H.
    + rewrite H, strip_prefix_app in E. discriminate.
    + injection H as _ H. apply (IH eq_refl pre). exists post. exact H.
Qed.

Lemma contains_true (sub s : str) :
  contains sub s = true <-> exists pre, occurs_at sub s pre.
Proof.
  unfold contains. destruct (partition sub s) as [[a b]|] eqn:P.
  - split; [intros _|reflexivity].
    exists a, b. apply (partition_Some _ _ _ _ P).
  - split; [discriminate|]. intros [pre H].
    exfalso. exact (partition_None _ _ P _ H).
Qed.

Lemma partition_length (sep s pre post : str) :
  partition sep s = Some (pre, post) ->
  length s = length pre + length sep + length post.
Proof.
  intros P. destruct (partition_Some _ _ _ _ P) as [-> _].
  rewrite !length_app. lia.
Qed.

Lemma split_fuel_indep (sep : str) :
  sep <> [] ->
  forall f1 f2 s, length s <= f1 -> length s <= f2 ->
  split_fuel f1 sep s = split_fuel f2 sep s.
Proof.
  intros Hsep f1. induction f1 as [|f1 IH]; intros f2 s H1 H2.
  - destruct s; [|simpl in H1; lia].
    destruct f2; simpl; [reflexivity|].
    destruct (strip_prefix sep []) as [r|] eqn:E; [|reflexivity].
    apply strip_prefix_Some in E. destruct sep; [congruence|discriminate].
  - destruct f2 as [|f2].
    + destruct s; [|simpl in H2; lia].
      simpl. destruct (strip_prefix sep []) as [r|] eqn:E; [|reflexivity].
      apply strip_prefix_Some in E. destruct sep; [congruence|discriminate].
    + simpl. destruct (partition sep s) as [[pre post]|] eqn:P; [|reflexivity].
      f_equal. apply partition_length in P.
      assert (0 < length sep) by (destruct sep; [congruence|simpl; lia]).
      apply IH; lia.
Qed.

(** The defining equation of [split]. *)
Lemma split_unfold (sep s : str) :
  sep <> [] ->
  split sep s =
  match partition sep s with
  | None => [s]
  | Some (pre, post) => pre :: split sep post
  end.
Proof.
  intros Hsep. unfold split at 1.
  rewrite (split_fuel_indep sep Hsep (length s) (S (length s)) s) by lia.
  simpl. destruct (partition sep s) as [[pre post]|] eqn:P; [|reflexivity].
  f_equal. apply partition_length in P.
  apply split_fuel_indep; [exact Hsep| |]; lia.
Qed.

Lemma partition_first_cut (sep s pre rest : str) :
  partition sep s = Some (pre, rest) <-> first_cut sep s pre rest.
Proof.
  split.
  - apply partition_Some.
  - intros [E Hmin].
    destruct (partition sep s) as [[pre0 rest0]|] eqn:P.
    + destruct (partition_Some _ _ _ _ P) as [E0 Hmin0].
      assert (L : length pre0 = length pre).
      { apply Nat.le_antisymm.
        - apply Hmin0. exists rest. exact E.
        - apply Hmin. exists rest0. exact E0. }
      rewrite E0 in E. apply app_eq_app in E.
      destruct E as [l2 [[E1 E2]|[E1 E2]]].
      * assert (l2 = []) as ->.
        { rewrite E1, length_app in L.
          destruct l2; [reflexivity|simpl in L; lia]. }
        rewrite app_nil_r in E1. subst pre0. simpl in E2.
        apply app_inv_head in E2. subst. reflexivity.
      * assert (l2 = []) as ->.
        { rewrite E1, length_app in L.
          destruct l2; [reflexivity|simpl in L; lia]. }
        rewrite app_nil_r in E1. subst pre. simpl in E2.
        apply app_inv_head in E2. subst. reflexivity.
    + exfalso. apply (partition_None _ _ P pre). exists rest. exact E.
Qed.

Lemma split_head (sep s : str) :
  sep <> [] -> nth_error (split sep s) 0 = Some (before sep s).
Proof.
  intros Hsep. rewrite (split_unfold sep s Hsep). unfold before.
  destruct (partition sep s) as [[pre post]|]; reflexivity.
Qed.

Lemma split_second (sep s pre rest : str) :
  sep <> [] -> partition sep s = Some (pre, rest) ->
  nth_error (split sep s) 1 = Some (before sep rest).
Proof.
  intros Hsep P. rewrite (split_unfold sep s Hsep), P. simpl.
  apply split_head. exact Hsep.
Qed.

(** When the separator occurs, the split has at least two parts. *)
Lemma split_two_parts (sep s : str) :
  sep <> [] -> contains sep s = true -> 2 <= length (split sep s).
Proof.
  intros Hsep C. unfold contains in C.
  destruct (partition sep s) as [[pre rest]|] eqn:P; [|discriminate].
  pose proof (split_second sep s pre rest Hsep P) as E.
  destruct (split sep s) as [|a [|b l]]; simpl in *;
    try discriminate; lia.
Qed.

Lemma up_to_before (sep s body : str) :
  up_to sep s body <-> body = before sep s.
Proof.
  unfold up_to, before. split.
  - intros [[post C]|[-> N]].
    + apply partition_first_cut in C. rewrite C. reflexivity.
    + destruct (partition sep s) as [[pre post]|] eqn:P; [|reflexivity].
      exfalso. apply (N pre). exists post. apply (partition_Some _ _ _ _ P).
  - intros ->. destruct (partition sep s) as [[pre post]|] eqn:P.
    + left. exists post. apply partition_first_cut. exact P.
    + right. split; [reflexivity|]. apply partition_None. exact P.
Qed.

End PyStrFacts.

(** ** Facts about the decoder: it consumes input and never runs dry *)

Module JsonFacts.
Import PyStr Py Interp Json PyStrFacts.

Ltac break_match :=
  match goal with
  | |- context [match ?x with _ => _ end] => destruct x eqn:?
  end.

Lemma skip_ws_length (s : str) : length (skip_ws s) <= length s.
Proof.
  induction s as [|c s IH]; simpl; [lia|].
  destruct (is_ws c); simpl; lia.
Qed.

Lemma skip_ws_cons_length (s r : str) (c : char) :
  skip_ws s = c :: r -> length r < length s.
Proof.
  intros H. pose proof (skip_ws_length s) as L. rewrite H in L.
  simpl in L. lia.
Qed.

Lemma scanstring_shorter (n : nat) :
  forall s, length s <= n ->
  forall acc x r, scanstring acc s = Scanned x r -> length r < length s.
Proof.
  induction n as [|n IH]; intros s Hlen acc x r.
  - destruct s; [simpl; discriminate | simpl in Hlen; lia].
  - destruct s as [|c s1]; [simpl; discriminate|].
    simpl. repeat break_match; intros H; try discriminate;
      try (injection H as _ <-; simpl; lia);
      (apply IH in H; simpl in *; lia).
Qed.

Lemma scanstring_stops (n : nat) :
  forall s, length s <= n ->
  forall acc w, scanstring acc s = Stopped w -> w = Invalid.
Proof.
  induction n as [|n IH]; intros s Hlen acc w.
  - destruct s; [simpl; congruence | simpl in Hlen; lia].
  - destruct s as [|c s1]; [simpl; congruence|].
    simpl. repeat break_match; intros H; try congruence;
      (apply IH in H; [exact H | simpl in *; lia]).
Qed.

Lemma take_digits_length (s : str) :
  length (snd (take_digits s)) <= length s.
Proof.
  induction s as [|c s IH]; simpl; [lia|].
  destruct (is_digit c); [|simpl; lia].
  destruct (take_digits s) as [ds r]. simpl in *. lia.
Qed.

Lemma match_integer_shorter (s r : str) (neg : bool) (ds : list N) :
  match_integer s = Some (neg, ds, r) -> length r < length s.
Proof.
  unfold match_integer.
  destruct s as [|c s']; [discriminate|].
  destruct (N.eqb c 45).
  - destruct s' as [|c1 s2]; [discriminate|].
    destruct (N.eqb c1 48); [intros [= _ _ <-]; simpl; lia|].
    destruct (is_digit c1); [|discriminate].
    pose proof (take_digits_length (c1 :: s2)) as L.
    destruct (take_digits (c1 :: s2)) as [ds' r'].
    intros [= _ _ <-]. simpl in *. lia.
  - destruct (N.eqb c 48); [intros [= _ _ <-]; simpl; lia|].
    destruct (is_digit c) eqn:D; [|discriminate].
    pose proof (take_digits_length s') as L.
    simpl. rewrite D.
    destruct (take_digits s') as [ds' r'].
    intros [= _ _ <-]. simpl in *. lia.
Qed.

Lemma match_frac_length (s : str) : length (snd (match_frac s)) <= length s.
Proof.
  unfold match_frac. destruct s as [|c s1]; [simpl; lia|].
  destruct (N.eqb c 46); [|simpl; lia].
  pose proof (take_digits_length s1) as L.
  destruct (take_digits s1) as [[|d ds] r]; simpl in *; lia.
Qed.

Lemma match_exp_length (s : str) : length (snd (match_exp s)) <= length s.
Proof.
  unfold match_exp. destruct s as [|c s1]; [simpl; lia|].
  destruct (N.eqb c 101 || N.eqb c 69); [|simpl; lia].
  destruct s1 as [|g s'].
  - simpl. lia.
  - destruct (N.eqb g 45).
    + pose proof (take_digits_length s') as L.
      destruct (take_digits s') as [[|d ds] r]; simpl in *; lia.
    + destruct (N.eqb g 43).
      * pose proof (take_digits_length s') as L.
        destruct (take_digits s') as [[|d ds] r]; simpl in *; lia.
      * pose proof (take_digits_length (g :: s')) as L.
        destruct (take_digits (g :: s')) as [[|d ds] r]; simpl in *; lia.
Qed.

Lemma match_number_shorter (s r : str) (neg : bool) (ds : list N)
      (frac : option (list N)) (exp : option Z) :
  match_number s = Some (neg, ds, frac, exp, r) -> length r < length s.
Proof.
  unfold match_number.
  destruct (match_integer s) as [[[neg0 ds0] r0]|] eqn:Int; [|discriminate].
  apply match_integer_shorter in Int.
  pose proof (match_frac_length r0) as F.
  destruct (match_frac r0) as [frac0 r1].
  pose proof (match_exp_length r1) as E.
  destruct (match_exp r1) as [exp0 r2]. simpl in F, E.
  intros [= _ _ _ _ <-]. lia.
Qed.

Lemma strip_prefix_shorter (p s r : str) :
  p <> [] -> strip_prefix p s = Some r -> length r < length s.
Proof.
  intros Hp H. apply strip_prefix_Some in H. subst s.
  rewrite length_app. destruct p; [congruence|simpl; lia].
Qed.

Section Limits.
Context {I : Interpreter}.

Lemma scan_atom_shorter (s r : str) (v : pyval) :
  scan_atom s = Scanned v r -> length r < length s.
Proof.
  unfold scan_atom.
  repeat match goal with
  | |- context [strip_prefix ?p s] =>
      let E := fresh "E" in
      destruct (strip_prefix p s) eqn:E;
      [apply strip_prefix_shorter in E; [|discriminate];
       intros [= _ <-]; exact E|]
  | |- context [match_number s] =>
      let E := fresh "E" in
      destruct (match_number s) as [[[[[? ?] ?] ?] ?]|] eqn:E;
      [apply match_number_shorter in E;
       destruct (number_value _ _ _ _); [|discriminate];
       intros [= _ <-]; exact E|]
  end.
  discriminate.
Qed.

Lemma scan_atom_stops (s : str) (w : stop) :
  scan_atom s = Stopped w -> w = Invalid \/ w = TooLong.
Proof.
  unfold scan_atom. repeat break_match; intros [= <-]; auto.
Qed.

(** Every successful scan consumes at least one character. *)
Lemma scan_shorter (fuel : nat) :
  (forall depth s v r,
      scan_once fuel depth s = Scanned v r -> length r < length s) /\
  (forall depth acc s v r,
      array_items fuel depth acc s = Scanned v r -> length r < length s) /\
  (forall depth acc s v r,
      object_members fuel depth acc s = Scanned v r -> length r < length s).
Proof.
  induction fuel as [|fuel (IHs & IHa & IHo)].
  - repeat split; intros; discriminate.
  - repeat split.
    + intros depth s v r. simpl. destruct s as [|c s1]; [discriminate|].
      destruct (N.eqb c 34).
      { destruct (scanstring [] s1) eqn:E; try discriminate.
        intros [= _ <-].
        apply scanstring_shorter with (n := length s1) in E; simpl; lia. }
      destruct (N.eqb c 123).
      { destruct depth as [|depth]; [discriminate|].
        destruct (skip_ws s1) as [|c1 r0] eqn:W; [discriminate|].
        apply skip_ws_cons_length in W.
        destruct (N.eqb c1 125); [intros [= _ <-]; simpl; lia|].
        destruct (N.eqb c1 34); [|discriminate].
        intros H. apply IHo in H. simpl; lia. }
      destruct (N.eqb c 91).
      { destruct depth as [|depth]; [discriminate|].
        destruct (skip_ws s1) as [|c1 r0] eqn:W; [discriminate|].
        pose proof (skip_ws_length s1) as L. rewrite W in L.
        destruct (N.eqb c1 93); [intros [= _ <-]; simpl in *; lia|].
        intros H. apply IHa in H. simpl in *; lia. }
      apply scan_atom_shorter.
    + intros depth acc s v r. simpl.
      destruct (scan_once fuel depth s) as [v0 r0|w] eqn:E; try discriminate.
      apply IHs in E.
      destruct (skip_ws r0) as [|c r1] eqn:W; [discriminate|].
      apply skip_ws_cons_length in W.
      destruct (N.eqb c 93); [intros [= _ <-]; lia|].
      destruct (N.eqb c 44); [|discriminate].
      intros H. apply IHa in H. pose proof (skip_ws_length r1). lia.
    + intros depth acc s v r. simpl.
      destruct (scanstring [] s) as [key r0|w] eqn:K; try discriminate.
      apply scanstring_shorter with (n := length s) in K; [|lia].
      destruct (skip_ws r0) as [|c r1] eqn:W; [discriminate|].
      apply skip_ws_cons_length in W.
      destruct (N.eqb c 58); [|discriminate].
      destruct (scan_once fuel depth (skip_ws r1)) as [v0 r2|w] eqn:E;
        try discriminate.
      apply IHs in E. pose proof (skip_ws_length r1) as L1.
      destruct (skip_ws r2) as [|c2 r3] eqn:W2; [discriminate|].
      apply skip_ws_cons_length in W2.
      destruct (N.eqb c2 125); [intros [= _ <-]; lia|].
      destruct (N.eqb c2 44); [|discriminate].
      destruct (skip_ws r3) as [|c3 r4] eqn:W3; [discriminate|].
      apply skip_ws_cons_length in W3.
      destruct (N.eqb c3 34); [|discriminate].
      intros H. apply IHo in H. lia.
Qed.

(** With fuel above twice the length of the input the scan never runs dry. *)
Lemma scan_fuel (fuel : nat) :
  (forall depth s,
      2 * length s + 2 <= fuel ->
      scan_once fuel depth s <> Stopped Exhausted) /\
  (forall depth acc s,
      2 * length s + 3 <= fuel ->
      array_items fuel depth acc s <> Stopped Exhausted) /\
  (forall depth acc s,
      2 * length s + 3 <= fuel ->
      object_members fuel depth acc s <> Stopped Exhausted).
Proof.
  induction fuel as [|fuel (IHs & IHa & IHo)].
  - repeat split; intros; lia.
  - repeat split.
    + intros depth s Hf. simpl. destruct s as [|c s1]; [discriminate|].
      simpl in Hf.
      destruct (N.eqb c 34).
      { destruct (scanstring [] s1) as [x r|w] eqn:E; [discriminate|].
        apply scanstring_stops with (n := length s1) in E; [|lia].
        subst w. discriminate. }
      destruct (N.eqb c 123).
      { destruct depth as [|depth]; [discriminate|].
        destruct (skip_ws s1) as [|c1 r0] eqn:W; [discriminate|].
        apply skip_ws_cons_length in W.
        destruct (N.eqb c1 125); [discriminate|].
        destruct (N.eqb c1 34); [|discriminate].
        apply IHo. lia. }
      destruct (N.eqb c 91).
      { destruct depth as [|depth]; [discriminate|].
        destruct (skip_ws s1) as [|c1 r0] eqn:W; [discriminate|].
        pose proof (skip_ws_length s1) as L. rewrite W in L.
        destruct (N.eqb c1 93); [discriminate|].
        apply IHa. simpl in *; lia. }
      intros A. apply scan_atom_stops in A. destruct A; discriminate.
    + intros depth acc s Hf. simpl.
      destruct (scan_once fuel depth s) as [v0 r0|w] eqn:E.
      * apply (proj1 (scan_shorter fuel)) in E.
        destruct (skip_ws r0) as [|c r1] eqn:W; [discriminate|].
        apply skip_ws_cons_length in W.
        destruct (N.eqb c 93); [discriminate|].
        destruct (N.eqb c 44); [|discriminate].
        apply IHa. pose proof (skip_ws_length r1). lia.
      * intros [= ->]. revert E. apply IHs. lia.
    + intros depth acc s Hf. simpl.
      destruct (scanstring [] s) as [key r0|w] eqn:K.
      * apply scanstring_shorter with (n := length s) in K; [|lia].
        destruct (skip_ws r0) as [|c r1] eqn:W; [discriminate|].
        apply skip_ws_cons_length in W.
        destruct (N.eqb c 58); [|discriminate].
        pose proof (skip_ws_length r1) as L1.
        destruct (scan_once fuel depth (skip_ws r1)) as [v0 r2|w] eqn:E.
        -- apply (proj1 (scan_shorter fuel)) in E.
           destruct (skip_ws r2) as [|c2 r3] eqn:W2; [discriminate|].
           apply skip_ws_cons_length in W2.
           destruct (N.eqb c2 125); [discriminate|].
           destruct (N.eqb c2 44); [|discriminate].
           destruct (skip_ws r3) as [|c3 r4] eqn:W3; [discriminate|].
           apply skip_ws_cons_length in W3.
           destruct (N.eqb c3 34); [|discriminate].
           apply IHo. lia.
        -- intros [= ->]. revert E. apply IHs. lia.
      * apply scanstring_stops with (n := length s) in K; [|lia].
        subst w. discriminate.
Qed.

(** The scan that [json.loads] runs never stops for lack of fuel. *)
Lemma loads_fuel (s : str) (depth : nat) :
  scan_once (2 * length s + 2) depth (skip_ws s) <> Stopped Exhausted.
Proof.
  apply (proj1 (scan_fuel _)). pose proof (skip_ws_length s). lia.
Qed.

(** [json.loads] returns a value or raises one of three exceptions. *)
Lemma loads_outcome (s : str) :
  (exists v, loads s = Ok v) \/
  loads s = Raise JSONDecodeError \/
  loads s = Raise ValueError \/
  loads s = Raise RecursionError.
Proof.
  assert (Core :
    (exists v, match scan_once (2 * length s + 2) max_nesting (skip_ws s) with
               | Scanned v r =>
                   match skip_ws r with
                   | [] => Ok v
                   | _ :: _ => Raise JSONDecodeError
                   end
               | Stopped w => Raise (exn_of_stop w)
               end = Ok v) \/
    match scan_once (2 * length s + 2) max_nesting (skip_ws s) with
    | Scanned v r =>
        match skip_ws r with
        | [] => Ok v
        | _ :: _ => Raise JSONDecodeError
        end
    | Stopped w => Raise (exn_of_stop w)
    end = Raise JSONDecodeError \/
    match scan_once (2 * length s + 2) max_nesting (skip_ws s) with
    | Scanned v r =>
        match skip_ws r with
        | [] => Ok v
        | _ :: _ => Raise JSONDecodeError
        end
    | Stopped w => Raise (exn_of_stop w)
    end = Raise ValueError \/
    match scan_once (2 * length s + 2) max_nesting (skip_ws s) with
    | Scanned v r =>
        match skip_ws r with
        | [] => Ok v
        | _ :: _ => Raise JSONDecodeError
        end
    | Stopped w => Raise (exn_of_stop w)
    end = Raise RecursionError).
  { destruct (scan_once (2 * length s + 2) max_nesting (skip_ws s))
      as [v r|w].
    - destruct (skip_ws r); eauto.
    - destruct w; simpl; auto. }
  unfold loads.
  destruct s as [|c s']; [exact Core|].
  destruct c as [|p]; [exact Core|].
  repeat (destruct p as [p|p|]; try exact Core); auto.
Qed.

End Limits.

End JsonFacts.

(** ** The extraction of the decision *)

Module ExtractFacts.
Import PyStr Py Interp Plugin Samples PyStrFacts JsonFacts.

Lemma fence_nonempty : fence <> [].
Proof. discriminate. Qed.

Lemma fence_json_nonempty : fence_json <> [].
Proof. discriminate. Qed.

(** What the slicing computes, branch by branch. *)
Lemma slice_fenced_eq (text : str) :
  slice_fenced text =
  match partition fence_json text with
  | Some (_, rest) => Ok (strip (before fence (before fence_json rest)))
  | None =>
      match partition fence text with
      | Some (_, rest) => Ok (strip (before fence rest))
      | None => Ok text
      end
  end.
Proof.
  unfold slice_fenced, contains, index.
  destruct (partition fence_json text) as [[pre rest]|] eqn:PJ.
  - rewrite (split_second fence_json text pre rest fence_json_nonempty PJ).
    unfold bind. rewrite (split_head fence _ fence_nonempty). reflexivity.
  - destruct (partition fence text) as [[pre rest]|] eqn:PF; [|reflexivity].
    rewrite (split_second fence text pre rest fence_nonempty PF).
    reflexivity.
Qed.

Lemma slice_fenced_total (text : str) : exists s, slice_fenced text = Ok s.
Proof.
  rewrite slice_fenced_eq.
  destruct (partition fence_json text) as [[? ?]|]; [eauto|].
  destruct (partition fence text) as [[? ?]|]; eauto.
Qed.

Lemma no_fence_no_tag (text : str) :
  partition fence text = None -> partition fence_json text = None.
Proof.
  intros N. destruct (partition fence_json text) as [[pre rest]|] eqn:P;
    [|reflexivity].
  exfalso. apply (partition_None _ _ N pre).
  exists (lit "json" ++ rest).
  destruct (partition_Some _ _ _ _ P) as [E _]. exact E.
Qed.

Lemma not_occurs_partition (sep s : str) :
  (forall pre, ~ occurs_at sep s pre) -> partition sep s = None.
Proof.
  intros N. destruct (partition sep s) as [[pre rest]|] eqn:P; [|reflexivity].
  exfalso. apply (N pre). exists rest. apply (partition_Some _ _ _ _ P).
Qed.

(** Decoding the sample texts needs one level of nesting and no integer. *)
Ltac decode_sample :=
  cbv beta delta [extract read_decision Json.loads];
  let P := fresh "P" in
  pose proof max_nesting_pos as P;
  destruct max_nesting; [inversion P|];
  vm_compute; reflexivity.

Section Decoding.
Context {I : Interpreter}.

(** What [read_decision] does with the value [json.loads] returns. *)
Lemma read_decision_dict (s : str) (d : list (str * pyval)) :
  Json.loads s = Ok (PyDict d) ->
  read_decision s =
  Ok {| should_reply := get_or (dict_lookup d (lit "should_reply"))
                               (PyBool false);
        reasoning := get_or (dict_lookup d (lit "reasoning"))
                            (PyStr NO_REASONING) |}.
Proof.
  intros L. unfold read_decision. rewrite L. unfold bind, get.
  destruct (dict_lookup d (lit "should_reply"));
    destruct (dict_lookup d (lit "reasoning")); reflexivity.
Qed.

Lemma read_decision_outcome (s : str) :
  (exists d, read_decision s = Ok d) \/
  (exists e, Json.decoding_error e /\ read_decision s = Raise e /\
             Json.loads s = Raise e) \/
  (read_decision s = Raise AttributeError /\
   exists v, Json.loads s = Ok v /\ forall d, v <> PyDict d).
Proof.
  unfold Json.decoding_error.
  destruct (loads_outcome s) as [[v L]|[L|[L|L]]].
  - destruct v;
      try (right; right; split;
           [unfold read_decision; rewrite L; reflexivity
           |eexists; split; [exact L|discriminate]]).
    left. rewrite (read_decision_dict s d L). eauto.
  - right; left. exists JSONDecodeError. split; [auto|]. split; [|exact L].
    unfold read_decision. rewrite L. reflexivity.
  - right; left. exists ValueError. split; [auto|]. split; [|exact L].
    unfold read_decision. rewrite L. reflexivity.
  - right; left. exists RecursionError. split; [auto|]. split; [|exact L].
    unfold read_decision. rewrite L. reflexivity.
Qed.

(** A failed extraction raises an [Exception]. *)
Lemma extract_error_is_Exception (text s : str) (e : exn) :
  extract text = (s, Raise e) -> is_Exception e = true.
Proof.
  unfold extract. destruct (slice_fenced_total text) as [s0 S0].
  rewrite S0. intros [= <- X].
  destruct (read_decision_outcome s0)
    as [[d D]|[(e0 & [->|[->| ->]] & D & _)|[D _]]];
    rewrite D in X; try discriminate; injection X as <-; reflexivity.
Qed.

(** C1. The three round-trip examples: a JSON-tagged fenced block, an
    untagged fenced block and a bare object each yield the decision
    written in them. *)
Theorem extract_round_trip :
  snd (extract tagged_x)
  = Ok {| should_reply := PyBool true; reasoning := PyStr (lit "x") |} /\
  snd (extract untagged_y)
  = Ok {| should_reply := PyBool false; reasoning := PyStr (lit "y") |} /\
  snd (extract bare_z)
  = Ok {| should_reply := PyBool true; reasoning := PyStr (lit "z") |}.
Proof. split; [|split]; decode_sample. Qed.

End Decoding.

(** C2, as the code has it.  With a JSON-tagged marker in the text, the
    extracted substring is what follows the first such marker, cut at the
    next JSON-tagged marker if there is one, then cut at the first fence
    marker if there is one, and stripped of surrounding whitespace; this
    branch is taken whatever fences come before.  Without a JSON-tagged
    marker but with a fence marker, it is what follows the first fence
    marker, cut at the next fence marker if there is one, and stripped.
    Without any fence marker it is the text itself.  The slicing never
    fails: with no closing marker the block runs to the end of the text. *)
Theorem slice_fenced_blocks (text : str) :
  (forall pre rest seg block,
      first_cut fence_json text pre rest ->
      up_to fence_json rest seg -> up_to fence seg block ->
      slice_fenced text = Ok (strip block)) /\
  (forall pre rest block,
      (forall pre', ~ occurs_at fence_json text pre') ->
      first_cut fence text pre rest -> up_to fence rest block ->
      slice_fenced text = Ok (strip block)) /\
  ((forall pre', ~ occurs_at fence text pre') -> slice_fenced text = Ok text).
Proof.
  rewrite slice_fenced_eq. repeat split.
  - intros pre rest seg block C S B.
    apply partition_first_cut in C. rewrite C.
    apply up_to_before in S. apply up_to_before in B. subst. reflexivity.
  - intros pre rest block N C B.
    rewrite (not_occurs_partition _ _ N).
    apply partition_first_cut in C. rewrite C.
    apply up_to_before in B. subst. reflexivity.
  - intros N. apply not_occurs_partition in N.
    rewrite (no_fence_no_tag _ N), N. reflexivity.
Qed.

Lemma slice_fenced_blocks_witness :
  slice_fenced tagged_x = Ok (strip (nl ++ decision_json "true" "x" ++ nl)) /\
  slice_fenced unclosed = Ok (strip (decision_json "true" "u")) /\
  slice_fenced bare_z = Ok bare_z.
Proof.
  split; [|split].
  - apply (proj1 (slice_fenced_blocks tagged_x)
                 [] (nl ++ decision_json "true" "x" ++ nl ++ fence)
                 (nl ++ decision_json "true" "x" ++ nl ++ fence)).
    + apply partition_first_cut. vm_compute. reflexivity.
    + apply up_to_before. vm_compute. reflexivity.
    + apply up_to_before. vm_compute. reflexivity.
  - apply (proj1 (proj2 (slice_fenced_blocks unclosed))
                 [] (decision_json "true" "u")).
    + apply partition_None. vm_compute. reflexivity.
    + apply partition_first_cut. vm_compute. reflexivity.
    + apply up_to_before. vm_compute. reflexivity.
  - apply (proj2 (proj2 (slice_fenced_blocks bare_z))).
    apply partition_None. vm_compute. reflexivity.
Defined.

(** C2 fails as stated.  A text with one fence marker and no closing one
    is sliced, not refused, and its decision is acted on; the block is
    stripped of the whitespace around it; and after a JSON-tagged marker
    the cut is made at the next JSON-tagged marker before the fence
    markers are looked at. *)
Lemma unclosed_fence_is_sliced :
  (length (split fence unclosed) = 2 /\
   contains fence_json unclosed = false /\
   slice_fenced unclosed = Ok (decision_json "true" "u") /\
   snd (extract (I := ascii_interpreter) unclosed)
   = Ok {| should_reply := PyBool true; reasoning := PyStr (lit "u") |} /\
   requests (trace_of (group_message_handler (I := ascii_interpreter)
               (host_with None) (plugin_of (init (host_with None)))
               (addressed (lit "hi")) (answers unclosed)))
   = [lit "hi"]) /\
  (first_cut fence_json tagged_x []
             (nl ++ decision_json "true" "x" ++ nl ++ fence) /\
   first_cut fence (nl ++ decision_json "true" "x" ++ nl ++ fence)
             (nl ++ decision_json "true" "x" ++ nl) [] /\
   slice_fenced tagged_x <> Ok (nl ++ decision_json "true" "x" ++ nl)) /\
  (first_cut fence_json retagged [] (lit "1`" ++ fence_json ++ lit "2") /\
   first_cut fence (lit "1`" ++ fence_json ++ lit "2")
             (lit "1") (lit "`json2") /\
   slice_fenced retagged = Ok (lit "1`")).
Proof.
  split; [|split].
  - repeat split; vm_compute; reflexivity.
  - split; [apply partition_first_cut; vm_compute; reflexivity|].
    split; [apply partition_first_cut; vm_compute; reflexivity|].
    intros E. vm_compute in E. discriminate E.
  - split; [apply partition_first_cut; vm_compute; reflexivity|].
    split; [apply partition_first_cut; vm_compute; reflexivity|].
    vm_compute. reflexivity.
Qed.

(** C10, as the code has it.  Whenever a membership test succeeds, the
    split on that marker has at least two parts, and a split always has a
    first part: the slicing returns for every text and [IndexError] is
    never raised.  An extraction that fails does so in [json.loads], with
    a [JSONDecodeError] for a syntax error (a [ValueError] for an integer
    beyond the digit limit, a [RecursionError] for nesting too deep), or,
    when the text decodes to a value that is not an object, in the reading
    of the fields, with an [AttributeError]. *)
Theorem slicing_never_out_of_range {I : Interpreter} (text : str) :
  (contains fence_json text = true -> 2 <= length (split fence_json text)) /\
  (contains fence text = true -> 2 <= length (split fence text)) /\
  (forall s, 1 <= length (split fence s)) /\
  (exists s, slice_fenced text = Ok s /\ fst (extract text) = s) /\
  (forall e, snd (extract text) = Raise e ->
     (Json.decoding_error e /\
      Json.loads (fst (extract text)) = Raise e) \/
     (e = AttributeError /\
      exists v, Json.loads (fst (extract text)) = Ok v /\
                forall d, v <> PyDict d)).
Proof.
  split; [apply split_two_parts, fence_json_nonempty|].
  split; [apply split_two_parts, fence_nonempty|].
  split.
  { intros s. pose proof (split_head fence s fence_nonempty) as E.
    destruct (split fence s); [discriminate|simpl; lia]. }
  destruct (slice_fenced_total text) as [s E].
  unfold extract. rewrite E. simpl. split; [eauto|].
  intros e R.
  destruct (read_decision_outcome s) as [[d D]|[(e0 & K & D & L)|[D L]]];
    rewrite D in R.
  - discriminate.
  - left. injection R as <-. split; [exact K|exact L].
  - right. injection R as <-. split; [reflexivity|exact L].
Qed.

Lemma slicing_never_out_of_range_witness :
  2 <= length (split fence untagged_y) /\
  (Json.decoding_error JSONDecodeError /\
   Json.loads (I := ascii_interpreter)
     (fst (extract (I := ascii_interpreter) (lit "not json at all")))
   = Raise JSONDecodeError \/
   JSONDecodeError = AttributeError /\
   exists v,
     Json.loads (I := ascii_interpreter)
       (fst (extract (I := ascii_interpreter) (lit "not json at all")))
     = Ok v /\
     forall d, v <> PyDict d).
Proof.
  split.
  - apply (proj1 (proj2 (slicing_never_out_of_range
                           (I := ascii_interpreter) untagged_y))).
    vm_compute. reflexivity.
  - apply (proj2 (proj2 (proj2 (proj2
             (slicing_never_out_of_range (I := ascii_interpreter)
                                         (lit "not json at all")))))).
    vm_compute. reflexivity.
Defined.

(** C10 fails as stated.  The text of a JSON array decodes without error,
    and the extraction still fails: a list has no [get].  The inner
    handler does not catch the [AttributeError]; the outer one logs it. *)
Lemma array_text_fails_after_parsing :
  Json.loads (I := ascii_interpreter) (lit "[]") = Ok (PyList []) /\
  extract (I := ascii_interpreter) (lit "[]")
  = (lit "[]", Raise AttributeError) /\
  caught_by_inner AttributeError = false /\
  trace_of (group_message_handler (I := ascii_interpreter)
              (host_with (Some (lit "{user_message}")))
              (plugin_of (init (host_with (Some (lit "{user_message}")))))
              (addressed (lit "hi")) (answers (lit "[]")))
  = [LogInfo (MsgReceived (lit "hi")); StopEvent; TextChat (lit "hi");
     LogError (MsgUnknownError AttributeError)].
Proof. repeat split; vm_compute; reflexivity. Qed.

End ExtractFacts.

(** ** The handler *)

Module HandlerFacts.
Import PyStr Py Interp Plugin Samples PyStrFacts JsonFacts ExtractFacts.

Lemma requests_app (a b : list action) :
  requests (a ++ b) = requests a ++ requests b.
Proof.
  induction a as [|x a IH]; [reflexivity|].
  destruct x; simpl; rewrite IH; reflexivity.
Qed.

Lemma model_calls_app (a b : list action) :
  model_calls (a ++ b) = model_calls a ++ model_calls b.
Proof.
  induction a as [|x a IH]; [reflexivity|].
  destruct x; simpl; rewrite IH; reflexivity.
Qed.

Lemma stops_event_app (a b : list action) :
  stops_event (a ++ b) = stops_event a || stops_event b.
Proof. apply existsb_app. Qed.

(** The built-in template renders for every message. *)
Lemma default_prompt_renders {I : Interpreter} (user_message : str)
      (is_at : bool) :
  exists prompt,
    Format.format DEFAULT_DECISION_PROMPT user_message is_at (lit "N/A")
    = Ok prompt.
Proof.
  unfold Format.format.
  destruct (Format.render user_message is_at (lit "N/A")
              DEFAULT_DECISION_PROMPT None []) as [s|e|] eqn:R.
  - eauto.
  - vm_compute in R. discriminate R.
  - vm_compute in R. discriminate R.
Qed.

Section Runs.
Context {I : Interpreter}.

Variable host : Host.
Variable self : BetterAutoReplyPlugin.
Variable event : AstrMessageEvent.
Variable p : provider.

Let is_at := is_at_or_wake_command event.
Let message_text := strip (message_str event).
Let keywords := deref (lists host) (trigger_keywords self).
Let template := decision_prompt_template self.
Let self' :=
  {| enabled := get_or (cfg_enabled (config host)) true;
     trigger_keywords := trigger_keywords self;
     decision_prompt_template := decision_prompt_template self |}.
Let start := [LogInfo (MsgReceived message_text); StopEvent].
Let run := group_message_handler host self event p.

Lemma is_triggered_by_keyword_spec (kws : list str) (text : str) :
  is_triggered_by_keyword kws text = true <-> keyword_match kws text.
Proof.
  unfold is_triggered_by_keyword, keyword_match. rewrite existsb_exists.
  split; intros [k [Hin Hc]]; exists k; (split; [exact Hin|]);
    apply contains_true; exact Hc.
Qed.

Lemma triggered_bool :
  is_at = true \/ keyword_match keywords message_text <->
  negb is_at && negb (is_triggered_by_keyword keywords message_text) = false.
Proof.
  rewrite <- is_triggered_by_keyword_spec.
  destruct is_at, (is_triggered_by_keyword keywords message_text); simpl;
    intuition congruence.
Qed.

Lemma run_eq :
  run =
  if negb (get_or (cfg_enabled (config host)) true) then (self', [], Returned)
  else if negb is_at && negb (is_triggered_by_keyword keywords message_text)
  then (self', [], Returned)
  else
    match decide_and_reply self message_text is_at p with
    | (t, Ok _) => (self', start ++ t, Returned)
    | (t, Raise e) =>
        if is_Exception e
        then (self', start ++ t ++ [LogError (MsgUnknownError e)], Returned)
        else (self', start ++ t, Propagated e)
    end.
Proof. reflexivity. Qed.

Lemma run_disabled :
  get_or (cfg_enabled (config host)) true = false ->
  run = (self', [], Returned).
Proof. intros E. rewrite run_eq, E. reflexivity. Qed.

Lemma run_untriggered :
  get_or (cfg_enabled (config host)) true = true ->
  ~ (is_at = true \/ keyword_match keywords message_text) ->
  run = (self', [], Returned).
Proof.
  intros E N. rewrite run_eq, E. simpl.
  destruct (negb is_at &&
            negb (is_triggered_by_keyword keywords message_text)) eqn:T;
    [reflexivity|].
  exfalso. apply N. apply triggered_bool. exact T.
Qed.

Lemma run_triggered :
  get_or (cfg_enabled (config host)) true = true ->
  is_at = true \/ keyword_match keywords message_text ->
  run =
  match decide_and_reply self message_text is_at p with
  | (t, Ok _) => (self', start ++ t, Returned)
  | (t, Raise e) =>
      if is_Exception e
      then (self', start ++ t ++ [LogError (MsgUnknownError e)], Returned)
      else (self', start ++ t, Propagated e)
  end.
Proof.
  intros E T. apply triggered_bool in T. rewrite run_eq, E, T. reflexivity.
Qed.

(** The body of the outer [try], case by case. *)

Lemma body_format_error {e : exn} :
  Format.format template message_text is_at (lit "N/A") = Raise e ->
  decide_and_reply self message_text is_at p = ([], Raise e).
Proof.
  intros F. unfold decide_and_reply. fold template. rewrite F. reflexivity.
Qed.

Lemma body_call_raises {prompt : str} {e : exn} :
  Format.format template message_text is_at (lit "N/A") = Ok prompt ->
  p prompt = Raises e ->
  decide_and_reply self message_text is_at p = ([TextChat prompt], Raise e).
Proof.
  intros F C. unfold decide_and_reply. fold template. rewrite F.
  unfold lift, mbind, text_chat. rewrite C. reflexivity.
Qed.

Lemma body_unavailable {prompt : str} {e : exn} :
  Format.format template message_text is_at (lit "N/A") = Ok prompt ->
  p prompt = Unavailable e ->
  decide_and_reply self message_text is_at p = ([], Raise e).
Proof.
  intros F C. unfold decide_and_reply. fold template. rewrite F.
  unfold lift, mbind, text_chat. rewrite C. reflexivity.
Qed.

Lemma body_unusable {prompt : str} {r : option LLMResponse} :
  Format.format template message_text is_at (lit "N/A") = Ok prompt ->
  p prompt = Returns r -> usable r = None ->
  decide_and_reply self message_text is_at p
  = ([TextChat prompt; LogError MsgLLMFailed], Ok tt).
Proof.
  intros F C U. unfold decide_and_reply. fold template. rewrite F.
  unfold lift, mbind, text_chat. rewrite C, U. reflexivity.
Qed.

Lemma body_extract_error {prompt : str} {r : option LLMResponse}
      {text s : str} {e : exn} :
  Format.format template message_text is_at (lit "N/A") = Ok prompt ->
  p prompt = Returns r -> usable r = Some text ->
  extract text = (s, Raise e) ->
  decide_and_reply self message_text is_at p
  = if caught_by_inner e
    then ([TextChat prompt; LogError (MsgParseFailed e s)], Ok tt)
    else ([TextChat prompt], Raise e).
Proof.
  intros F C U X. unfold decide_and_reply. fold template. rewrite F.
  unfold lift, mbind, text_chat. rewrite C, U, X.
  destruct (caught_by_inner e); reflexivity.
Qed.

Lemma body_decided {prompt : str} {r : option LLMResponse}
      {text s : str} {d : Decision} :
  Format.format template message_text is_at (lit "N/A") = Ok prompt ->
  p prompt = Returns r -> usable r = Some text ->
  extract text = (s, Ok d) ->
  decide_and_reply self message_text is_at p
  = ([TextChat prompt; LogInfo MsgThinking;
      LogInfo (MsgReasoning (reasoning d));
      LogInfo (MsgIntent (truthy (should_reply d)))]
       ++ (if truthy (should_reply d)
           then [LogInfo MsgWillReply; RequestLLM message_text]
           else [LogInfo MsgWillNotReply]),
     Ok tt).
Proof.
  intros F C U X. unfold decide_and_reply. fold template. rewrite F.
  unfold lift, mbind, text_chat, tell. rewrite C, U, X.
  destruct (truthy (should_reply d)); reflexivity.
Qed.

(** Whatever happens in the body: it never stops the event again, it
    asks for at most one reply, and it calls the model exactly when the
    prompt renders and the provider is obtained. *)
Lemma body_shape :
  forall t r, decide_and_reply self message_text is_at p = (t, r) ->
  stops_event t = false /\
  length (requests t) <= 1 /\
  match Format.format template message_text is_at (lit "N/A") with
  | Ok prompt => model_calls t = if is_called (p prompt) then [prompt] else []
  | Raise e => t = [] /\ r = Raise e
  end.
Proof.
  intros t r. unfold decide_and_reply. fold template.
  destruct (Format.format template message_text is_at (lit "N/A"))
    as [prompt|e]; [|intros [= <- <-]; simpl; auto].
  unfold lift, mbind, text_chat, tell, raise.
  destruct (p prompt) as [resp|e|e];
    [|intros [= <- <-]; simpl; auto|intros [= <- <-]; simpl; auto].
  destruct (usable resp) as [text|]; [|intros [= <- <-]; simpl; auto].
  destruct (extract text) as [s [d|e]].
  - destruct (truthy (should_reply d)); intros [= <- <-]; simpl; auto.
  - destruct (caught_by_inner e); intros [= <- <-]; simpl; auto.
Qed.

Lemma run_triggered_trace :
  get_or (cfg_enabled (config host)) true = true ->
  is_at = true \/ keyword_match keywords message_text ->
  exists t r tail,
    decide_and_reply self message_text is_at p = (t, r) /\
    trace_of run = start ++ t ++ tail /\
    (tail = [] \/ exists e, tail = [LogError (MsgUnknownError e)]).
Proof.
  intros E T. rewrite (run_triggered E T).
  destruct (decide_and_reply self message_text is_at p) as [t [u|e]].
  - exists t, (Ok u), []. rewrite app_nil_r. auto.
  - destruct (is_Exception e).
    + exists t, (Raise e), [LogError (MsgUnknownError e)]. eauto.
    + exists t, (Raise e), []. rewrite app_nil_r. auto.
Qed.

(** C6. With [enabled] false in the configuration the handler returns at
    once: no log line, no action at all, a normal return, and the plugin's
    keywords and template as they were. *)
Theorem disabled_does_nothing :
  get_or (cfg_enabled (config host)) true = false ->
  trace_of run = [] /\
  outcome_of run = Returned /\
  trigger_keywords (self_of run) = trigger_keywords self /\
  decision_prompt_template (self_of run) = decision_prompt_template self.
Proof.
  intros E. rewrite (run_disabled E). repeat split.
Qed.

(** C7. A triggered run logs the message and stops the event before
    anything else: every model call in its trace comes after the stop, the
    event is stopped once, and this holds however the run ends. *)
Theorem event_stopped_before_model_call :
  get_or (cfg_enabled (config host)) true = true ->
  is_at = true \/ keyword_match keywords message_text ->
  (exists rest,
      trace_of run = LogInfo (MsgReceived message_text) :: StopEvent :: rest /\
      stops_event rest = false) /\
  (forall before prompt after,
      trace_of run = before ++ TextChat prompt :: after ->
      In StopEvent before).
Proof.
  intros E T.
  destruct (run_triggered_trace E T) as (t & r & tail & B & R & Tl).
  destruct (body_shape _ _ B) as (S & _ & _).
  assert (X : exists rest,
             trace_of run
             = LogInfo (MsgReceived message_text) :: StopEvent :: rest /\
             stops_event rest = false).
  { exists (t ++ tail). split; [exact R|].
    rewrite stops_event_app, S.
    destruct Tl as [->|[e ->]]; reflexivity. }
  split; [exact X|].
  destruct X as (rest & -> & _).
  intros before prompt after Eq.
  destruct before as [|a [|b before]]; simpl in Eq.
  - discriminate.
  - injection Eq as _ Eq. discriminate.
  - injection Eq as _ -> _. simpl. auto.
Qed.

(** C8. A run asks for at most one reply.  When it produces a decision,
    it asks for exactly one if [should_reply] is true, with the message
    text as the prompt (the handler's [message_text], the event's message
    string stripped), and for none if [should_reply] is false. *)
Theorem at_most_one_reply_request :
  length (requests (trace_of run)) <= 1 /\
  (forall prompt r text s d,
      get_or (cfg_enabled (config host)) true = true ->
      is_at = true \/ keyword_match keywords message_text ->
      Format.format template message_text is_at (lit "N/A") = Ok prompt ->
      p prompt = Returns r -> usable r = Some text ->
      extract text = (s, Ok d) ->
      requests (trace_of run)
      = if truthy (should_reply d) then [strip (message_str event)] else []).
Proof.
  split.
  - rewrite run_eq.
    destruct (negb (get_or (cfg_enabled (config host)) true));
      [simpl; lia|].
    destruct (negb is_at &&
              negb (is_triggered_by_keyword keywords message_text));
      [simpl; lia|].
    destruct (decide_and_reply self message_text is_at p) as [t r] eqn:B.
    destruct (body_shape _ _ B) as (_ & L & _).
    destruct r as [u|e]; [|destruct (is_Exception e)]; unfold trace_of;
      simpl; rewrite ?requests_app; simpl; rewrite ?app_nil_r; exact L.
  - intros prompt r text s d E T F C U X.
    rewrite (run_triggered E T), (body_decided F C U X).
    destruct (truthy (should_reply d)); reflexivity.
Qed.

(** C5. In a triggered run each error is logged and ends the run quietly:
    a template that fails to render, a provider that returns nothing
    usable or raises, and an extraction that fails.  The trace ends with
    the error line, no reply is asked for, and the handler returns. *)
Theorem errors_abort_silently :
  get_or (cfg_enabled (config host)) true = true ->
  is_at = true \/ keyword_match keywords message_text ->
  (forall e,
      Format.format template message_text is_at (lit "N/A") = Raise e ->
      is_Exception e = true ->
      trace_of run = start ++ [LogError (MsgUnknownError e)] /\
      requests (trace_of run) = [] /\
      outcome_of run = Returned) /\
  (forall prompt r,
      Format.format template message_text is_at (lit "N/A") = Ok prompt ->
      p prompt = Returns r -> usable r = None ->
      trace_of run = start ++ [TextChat prompt; LogError MsgLLMFailed] /\
      requests (trace_of run) = [] /\
      outcome_of run = Returned) /\
  (forall prompt e,
      Format.format template message_text is_at (lit "N/A") = Ok prompt ->
      p prompt = Raises e -> is_Exception e = true ->
      trace_of run
      = start ++ [TextChat prompt; LogError (MsgUnknownError e)] /\
      requests (trace_of run) = [] /\
      outcome_of run = Returned) /\
  (forall prompt r text e,
      Format.format template message_text is_at (lit "N/A") = Ok prompt ->
      p prompt = Returns r -> usable r = Some text ->
      snd (extract text) = Raise e ->
      trace_of run
      = start ++ [TextChat prompt;
                  LogError (if caught_by_inner e
                            then MsgParseFailed e (fst (extract text))
                            else MsgUnknownError e)] /\
      requests (trace_of run) = [] /\
      outcome_of run = Returned).
Proof.
  intros E T. rewrite (run_triggered E T). split; [|split; [|split]].
  - intros e F Ex. rewrite (body_format_error F), Ex. repeat split.
  - intros prompt r F C U. rewrite (body_unusable F C U). repeat split.
  - intros prompt e F C Ex. rewrite (body_call_raises F C), Ex.
    repeat split.
  - intros prompt r text e F C U X.
    destruct (extract text) as [s r0] eqn:Xt. simpl in X. subst r0.
    rewrite (body_extract_error F C U Xt). simpl.
    destruct (caught_by_inner e) eqn:Cb; [repeat split|].
    assert (Ex : is_Exception e = true)
      by exact (extract_error_is_Exception _ _ _ Xt).
    rewrite Ex. repeat split.
Qed.


End Runs.

Section Defaults.
Context {I : Interpreter}.

(** C4. When the sliced text decodes to an object, the decision takes
    [should_reply] from it, [False] when the key is absent, and
    [reasoning] from it, the filler when the key is absent.  The object
    with only a [reasoning] field gives [should_reply = False], and a run
    whose model answers with it asks for no reply. *)
Theorem decision_defaults :
  (forall text s d,
      slice_fenced text = Ok s -> Json.loads s = Ok (PyDict d) ->
      snd (extract text)
      = Ok {| should_reply := get_or (dict_lookup d (lit "should_reply"))
                                     (PyBool false);
              reasoning := get_or (dict_lookup d (lit "reasoning"))
                                  (PyStr NO_REASONING) |}) /\
  snd (extract no_flag)
  = Ok {| should_reply := PyBool false;
          reasoning := PyStr (lit "no flag given") |} /\
  (forall host self event,
      requests (trace_of (group_message_handler host self event
                                                (answers no_flag))) = []).
Proof.
  split; [|split].
  - intros text s d S L. unfold extract. rewrite S. simpl.
    apply read_decision_dict. exact L.
  - decode_sample.
  - intros host self event. rewrite run_eq.
    destruct (negb (get_or (cfg_enabled (config host)) true));
      [reflexivity|].
    match goal with
    | |- context [if ?b then _ else _] => destruct b; [reflexivity|]
    end.
    destruct (Format.format (decision_prompt_template self)
                (strip (message_str event)) (is_at_or_wake_command event)
                (lit "N/A")) as [prompt|e] eqn:F.
    + assert (X : extract no_flag
                  = (no_flag,
                     Ok {| should_reply := PyBool false;
                           reasoning := PyStr (lit "no flag given") |}))
        by decode_sample.
      rewrite (body_decided self event (answers no_flag) F
                            eq_refl eq_refl X).
      reflexivity.
    + rewrite (body_format_error self event (answers no_flag) F).
      destruct (is_Exception e); reflexivity.
Qed.

(** C9, as the code has it.  Only [enabled] is read from the
    configuration when a message is evaluated.  The template and the
    keyword list are those the plugin took at initialization, and two
    hosts that agree on [enabled] and on the content of that list object
    give the same run, whatever their template and keyword settings. *)
Theorem only_enabled_is_read_fresh :
  forall h0 h h' event p,
    let self := plugin_of (init h0) in
    enabled (self_of (group_message_handler h self event p))
    = get_or (cfg_enabled (config h)) true /\
    decision_prompt_template self
    = get_or (cfg_decision_making_prompt (config h0))
             DEFAULT_DECISION_PROMPT /\
    trigger_keywords self
    = get_or (cfg_trigger_keywords (config h0)) (length (lists h0)) /\
    (cfg_enabled (config h) = cfg_enabled (config h') ->
     deref (lists h) (trigger_keywords self)
     = deref (lists h') (trigger_keywords self) ->
     group_message_handler h self event p
     = group_message_handler h' self event p).
Proof.
  intros h0 h h' event p self. split; [|split; [|split]].
  - rewrite run_eq.
    destruct (negb (get_or (cfg_enabled (config h)) true)); [reflexivity|].
    match goal with
    | |- context [if ?b then _ else _] => destruct b; [reflexivity|]
    end.
    destruct (decide_and_reply self (strip (message_str event))
                (is_at_or_wake_command event) p) as [t [u|e]];
      [reflexivity|].
    destruct (is_Exception e); reflexivity.
  - reflexivity.
  - reflexivity.
  - intros En Kw. rewrite !run_eq, En, Kw. reflexivity.
Qed.

End Defaults.

(** *** The theorems at sample runs *)

Lemma disabled_does_nothing_witness :
  let run := group_message_handler (I := ascii_interpreter) host_off
               (plugin_of (init host_off)) (addressed (lit "hi"))
               (answers bare_z) in
  trace_of run = [] /\ outcome_of run = Returned.
Proof.
  destruct (disabled_does_nothing (I := ascii_interpreter) host_off
              (plugin_of (init host_off)) (addressed (lit "hi"))
              (answers bare_z) eq_refl) as (T & O & _).
  split; [exact T | exact O].
Defined.

Lemma event_stopped_before_model_call_witness :
  exists rest,
    trace_of (group_message_handler (I := ascii_interpreter)
                (host_with None) (plugin_of (init (host_with None)))
                (addressed (lit "hi")) silent)
    = LogInfo (MsgReceived (lit "hi")) :: StopEvent :: rest /\
    stops_event rest = false.
Proof.
  exact (proj1 (event_stopped_before_model_call (I := ascii_interpreter)
                  (host_with None) (plugin_of (init (host_with None)))
                  (addressed (lit "hi")) silent eq_refl
                  (or_introl eq_refl))).
Defined.

Lemma at_most_one_reply_request_witness :
  requests (trace_of (group_message_handler (I := ascii_interpreter)
              (host_keyword (lit "PRICE"))
              (plugin_of (init (host_keyword (lit "PRICE"))))
              (unaddressed (lit " the price? ")) (answers bare_z)))
  = [lit "the price?"].
Proof.
  apply (proj2 (at_most_one_reply_request (I := ascii_interpreter)
                  (host_keyword (lit "PRICE"))
                  (plugin_of (init (host_keyword (lit "PRICE"))))
                  (unaddressed (lit " the price? ")) (answers bare_z))
               (lit "the price?") (Some {| completion_text := Some bare_z |})
               bare_z bare_z
               {| should_reply := PyBool true; reasoning := PyStr (lit "z") |}).
  - reflexivity.
  - right. apply is_triggered_by_keyword_spec. vm_compute. reflexivity.
  - vm_compute. reflexivity.
  - reflexivity.
  - reflexivity.
  - vm_compute. reflexivity.
Defined.

Lemma errors_abort_silently_witness :
  outcome_of (group_message_handler (I := ascii_interpreter)
                (host_with (Some (lit "{foo}")))
                (plugin_of (init (host_with (Some (lit "{foo}")))))
                (addressed (lit "hi")) (answers bare_z)) = Returned /\
  outcome_of (group_message_handler (I := ascii_interpreter)
                (host_with None) (plugin_of (init (host_with None)))
                (addressed (lit "hi")) silent) = Returned /\
  outcome_of (group_message_handler (I := ascii_interpreter)
                (host_with None) (plugin_of (init (host_with None)))
                (addressed (lit "hi")) failing) = Returned /\
  requests (trace_of (group_message_handler (I := ascii_interpreter)
              (host_with (Some (lit "{user_message}")))
              (plugin_of (init (host_with (Some (lit "{user_message}")))))
              (addressed (lit "hi")) (answers (lit "not json at all"))))
  = [].
Proof.
  split; [|split; [|split]].
  - apply (proj1 (errors_abort_silently (I := ascii_interpreter)
                    (host_with (Some (lit "{foo}")))
                    (plugin_of (init (host_with (Some (lit "{foo}")))))
                    (addressed (lit "hi")) (answers bare_z)
                    eq_refl (or_introl eq_refl)) KeyError).
    + vm_compute. reflexivity.
    + reflexivity.
  - destruct (Format.format (I := ascii_interpreter) DEFAULT_DECISION_PROMPT
                (lit "hi") true (lit "N/A")) as [prompt|e] eqn:F;
      [|vm_compute in F; discriminate F].
    apply (proj1 (proj2 (errors_abort_silently (I := ascii_interpreter)
                    (host_with None) (plugin_of (init (host_with None)))
                    (addressed (lit "hi")) silent
                    eq_refl (or_introl eq_refl))) prompt None).
    + exact F.
    + reflexivity.
    + reflexivity.
  - destruct (Format.format (I := ascii_interpreter) DEFAULT_DECISION_PROMPT
                (lit "hi") true (lit "N/A")) as [prompt|e] eqn:F;
      [|vm_compute in F; discriminate F].
    apply (proj1 (proj2 (proj2 (errors_abort_silently
                    (I := ascii_interpreter)
                    (host_with None) (plugin_of (init (host_with None)))
                    (addressed (lit "hi")) failing
                    eq_refl (or_introl eq_refl)))) prompt ProviderError).
    + exact F.
    + reflexivity.
    + reflexivity.
  - apply (proj2 (proj2 (proj2 (errors_abort_silently
                    (I := ascii_interpreter)
                    (host_with (Some (lit "{user_message}")))
                    (plugin_of (init (host_with (Some (lit "{user_message}")))))
                    (addressed (lit "hi")) (answers (lit "not json at all"))
                    eq_refl (or_introl eq_refl))))
                 (lit "hi")
                 (Some {| completion_text := Some (lit "not json at all") |})
                 (lit "not json at all") JSONDecodeError).
    + vm_compute. reflexivity.
    + reflexivity.
    + reflexivity.
    + vm_compute. reflexivity.
Defined.



Lemma decision_defaults_witness :
  snd (extract (I := ascii_interpreter) untagged_y)
  = Ok {| should_reply := PyBool false; reasoning := PyStr (lit "y") |}.
Proof.
  apply (proj1 (decision_defaults (I := ascii_interpreter))
               untagged_y (decision_json "false" "y")
               [(lit "should_reply", PyBool false);
                (lit "reasoning", PyStr (lit "y"))]).
  - vm_compute. reflexivity.
  - vm_compute. reflexivity.
Defined.

(** The host of [host_with], its template setting replaced. *)
Lemma only_enabled_is_read_fresh_witness :
  group_message_handler (I := ascii_interpreter)
    (host_with (Some (lit "A:{user_message}")))
    (plugin_of (init (host_with (Some (lit "A:{user_message}")))))
    (addressed (lit "hi")) silent
  = group_message_handler (I := ascii_interpreter)
      (host_with (Some (lit "B:{user_message}")))
      (plugin_of (init (host_with (Some (lit "A:{user_message}")))))
      (addressed (lit "hi")) silent.
Proof.
  apply (proj2 (proj2 (proj2 (only_enabled_is_read_fresh
                  (I := ascii_interpreter)
                  (host_with (Some (lit "A:{user_message}")))
                  (host_with (Some (lit "A:{user_message}")))
                  (host_with (Some (lit "B:{user_message}")))
                  (addressed (lit "hi")) silent)))).
  - reflexivity.
  - reflexivity.
Defined.

(** C9 fails as stated.  After the template setting is replaced in the
    configuration, the plugin still sends the prompt of the template it
    was initialized with, where a plugin initialized afterwards sends the
    new one; and after the keyword setting is bound to another list, the
    plugin still matches against the list it took at initialization. *)
Lemma later_settings_are_not_seen :
  (let old := host_with (Some (lit "A:{user_message}")) in
   let new := host_with (Some (lit "B:{user_message}")) in
   model_calls (trace_of (group_message_handler (I := ascii_interpreter)
                  new (plugin_of (init old)) (addressed (lit "hi")) silent))
   = [lit "A:hi"] /\
   model_calls (trace_of (group_message_handler (I := ascii_interpreter)
                  new (plugin_of (init new)) (addressed (lit "hi")) silent))
   = [lit "B:hi"]) /\
  (let old := host_keyword (lit "price") in
   let new :=
     {| config := {| cfg_enabled := Some true;
                     cfg_trigger_keywords := Some 1;
                     cfg_decision_making_prompt :=
                       Some (lit "{user_message}") |};
        lists := [[lit "price"]; [lit "hello"]] |} in
   trace_of (group_message_handler (I := ascii_interpreter)
               new (plugin_of (init old)) (unaddressed (lit "hello"))
               silent)
   = [] /\
   stops_event
     (trace_of (group_message_handler (I := ascii_interpreter)
                  new (plugin_of (init new)) (unaddressed (lit "hello"))
                  silent))
   = true).
Proof. repeat split. Qed.

End HandlerFacts.

(** ** More on the handler and what it calls *)

Module MoreFacts.
Import PyStr Py Interp Format Plugin Samples Shapes.
Import PyStrFacts JsonFacts ExtractFacts HandlerFacts.

(** *** [str.strip] *)

Lemma lstrip_all_space (w : str) : all_space w = true -> lstrip w = [].
Proof.
  induction w as [|c w IH]; simpl; [reflexivity|].
  destruct (isspace c); [exact IH | discriminate].
Qed.

Lemma lstrip_pad (w s : str) :
  all_space w = true -> lstrip (w ++ s) = lstrip s.
Proof.
  induction w as [|c w IH]; simpl; [reflexivity|].
  destruct (isspace c); [exact IH | discriminate].
Qed.

Lemma lstrip_app (s w : str) :
  lstrip (s ++ w) =
  match lstrip s with
  | [] => lstrip w
  | _ :: _ => lstrip s ++ w
  end.
Proof.
  induction s as [|c s IH]; simpl.
  - destruct (lstrip w); reflexivity.
  - destruct (isspace c); [exact IH | reflexivity].
Qed.

Lemma rstrip_pad (s w : str) :
  all_space w = true -> rstrip (s ++ w) = rstrip s.
Proof.
  intros W. unfold rstrip. rewrite rev_app_distr, lstrip_pad; [reflexivity|].
  unfold all_space in *. rewrite forallb_forall in *.
  intros x Hx. apply W. apply in_rev. exact Hx.
Qed.

(** Whitespace around a text does not change what [strip] returns. *)
Lemma strip_pad (w s w' : str) :
  all_space w = true -> all_space w' = true ->
  strip (w ++ s ++ w') = strip s.
Proof.
  intros W W'. unfold strip. rewrite (lstrip_pad w _ W), lstrip_app.
  destruct (lstrip s) as [|c t] eqn:L.
  - rewrite (lstrip_all_space w' W'). reflexivity.
  - apply rstrip_pad. exact W'.
Qed.

Lemma lstrip_split (s : str) :
  exists w, all_space w = true /\ s = w ++ lstrip s /\
            starts_with_space (lstrip s) = false.
Proof.
  induction s as [|c s (w & W & E & H)]; simpl.
  - exists []. repeat split.
  - destruct (isspace c) eqn:C.
    + exists (c :: w). simpl. rewrite C, W. repeat split; [|exact H].
      f_equal. exact E.
    + exists []. simpl. rewrite C. repeat split.
Qed.

Lemma lstrip_fixed (s : str) : starts_with_space s = false -> lstrip s = s.
Proof.
  destruct s as [|c s]; simpl; [reflexivity|]. intros ->. reflexivity.
Qed.

Lemma rstrip_fixed (s : str) : ends_with_space s = false -> rstrip s = s.
Proof.
  intros H. unfold rstrip. rewrite (lstrip_fixed _ H). apply rev_involutive.
Qed.

(** What [strip] returns: the text between a whitespace prefix and a
    whitespace suffix, itself with no whitespace at either end. *)
Lemma strip_spec (s : str) :
  (exists w w', all_space w = true /\ all_space w' = true /\
                s = w ++ strip s ++ w') /\
  starts_with_space (strip s) = false /\
  ends_with_space (strip s) = false.
Proof.
  destruct (lstrip_split s) as (w & W & E & H).
  destruct (lstrip_split (rev (lstrip s))) as (v & V & E' & H').
  unfold strip, rstrip. split; [|split].
  - exists w, (rev v). split; [exact W|]. split.
    + unfold all_space in *. rewrite forallb_forall in *.
      intros x Hx. apply V. apply in_rev. exact Hx.
    + rewrite <- rev_app_distr, <- E', rev_involutive. exact E.
  - destruct (lstrip (rev (lstrip s))) as [|c t] eqn:L; [reflexivity|].
    assert (R : lstrip s = rev (c :: t) ++ rev v).
    { rewrite <- rev_app_distr, <- E'. symmetry. apply rev_involutive. }
    destruct (rev (c :: t)) as [|d u] eqn:Rv.
    + apply (f_equal (@rev char)) in Rv. rewrite rev_involutive in Rv.
      discriminate Rv.
    + rewrite R in H. simpl in H. exact H.
  - unfold ends_with_space. rewrite rev_involutive. exact H'.
Qed.

Lemma strip_idempotent (s : str) : strip (strip s) = strip s.
Proof.
  destruct (strip_spec s) as (_ & H & H').
  unfold strip at 1. rewrite (lstrip_fixed _ H). apply rstrip_fixed, H'.
Qed.

(** *** Objects with a key given more than once *)

Lemma str_eqb_eq (a b : str) : str_eqb a b = true <-> a = b.
Proof.
  revert b. induction a as [|x a IH]; intros [|y b]; simpl;
    try (split; [discriminate|discriminate]); [split; reflexivity|].
  rewrite andb_true_iff, N.eqb_eq, IH.
  split; [intros [-> ->]; reflexivity | intros [= -> ->]; auto].
Qed.

Lemma str_eqb_trans_l (a b k : str) :
  str_eqb a b = true -> str_eqb a k = str_eqb b k.
Proof. intros H. apply str_eqb_eq in H. subst. reflexivity. Qed.

Lemma lookup_set (d : list (str * pyval)) (k' k : str) (v : pyval) :
  dict_lookup (dict_set d k' v) k
  = if str_eqb k' k then Some v else dict_lookup d k.
Proof.
  induction d as [|[k0 v0] d IH]; simpl; [reflexivity|].
  destruct (str_eqb k0 k') eqn:E; simpl.
  - rewrite (str_eqb_trans_l k0 k' k E).
    destruct (str_eqb k' k); reflexivity.
  - rewrite IH.
    destruct (str_eqb k0 k) eqn:E0; destruct (str_eqb k' k) eqn:E';
      try reflexivity.
    apply str_eqb_eq in E0, E'. subst k0 k'.
    assert (R : str_eqb k k = true) by (apply str_eqb_eq; reflexivity).
    congruence.
Qed.

Lemma find_over_app {A : Type} (f : A -> bool) (l l' : list A) :
  find f (l ++ l')
  = match find f l with Some x => Some x | None => find f l' end.
Proof.
  induction l as [|x l IH]; simpl; [reflexivity|].
  destruct (f x); [reflexivity | exact IH].
Qed.

Lemma lookup_fold (pairs d : list (str * pyval)) (k : str) :
  dict_lookup (fold_left (fun d kv => dict_set d (fst kv) (snd kv)) pairs d)
              k
  = match last_value pairs k with
    | Some v => Some v
    | None => dict_lookup d k
    end.
Proof.
  revert d. induction pairs as [|[k0 v0] pairs IH]; intros d;
    [reflexivity|].
  simpl fold_left. rewrite IH, lookup_set. unfold last_value. simpl rev.
  rewrite find_over_app.
  destruct (find (fun kv => str_eqb (fst kv) k) (rev pairs)) as [kv|];
    [reflexivity|].
  simpl. destruct (str_eqb k0 k); reflexivity.
Qed.

(** X16. In the object [json.loads] builds, a key written several
    times has the value written last, and a key never written is absent:
    that value is what [decision.get] finds. *)
Theorem repeated_key_takes_last_value (pairs : list (str * pyval))
        (k : str) (default : pyval) :
  dict_lookup (dict_of_pairs pairs) k = last_value pairs k /\
  get (PyDict (dict_of_pairs pairs)) k default
  = Ok (match last_value pairs k with Some v => v | None => default end).
Proof.
  assert (L : dict_lookup (dict_of_pairs pairs) k = last_value pairs k).
  { unfold dict_of_pairs. rewrite lookup_fold.
    destruct (last_value pairs k); reflexivity. }
  split; [exact L|]. unfold get. rewrite L.
  destruct (last_value pairs k); reflexivity.
Qed.

(** *** Fenced blocks among other text *)

(** Rewriting with an equation on strings, whichever name the type of
    characters is written with. *)
Ltac rewrite_str E :=
  let X := fresh "X" in
  pose proof E as X; unfold str, char in X |- *; rewrite X; clear X.

Lemma partition_cons (sep s : str) (c : char) :
  partition sep (c :: s) =
  match strip_prefix sep (c :: s) with
  | Some post => Some ([], post)
  | None =>
      match partition sep s with
      | Some (pre, post) => Some (c :: pre, post)
      | None => None
      end
  end.
Proof. reflexivity. Qed.

Lemma lacks_head (c x : char) (s : str) :
  lacks c (x :: s) = true -> N.eqb x c = false /\ lacks c s = true.
Proof.
  unfold lacks. simpl. intros H. apply andb_prop in H. destruct H as [H1 H2].
  apply negb_true_iff in H1. auto.
Qed.

Lemma strip_prefix_isolated (sep a t : str) (c : char) :
  strip_prefix sep a = None -> lacks c sep = true ->
  strip_prefix sep (a ++ c :: t) = None.
Proof.
  revert a. induction sep as [|x sep IH]; intros a N L; [discriminate N|].
  apply lacks_head in L. destruct L as [X L].
  destruct a as [|y a]; simpl.
  - rewrite X. reflexivity.
  - simpl in N. destruct (N.eqb x y); [|reflexivity].
    apply IH; assumption.
Qed.

(** A character that is not in the separator keeps occurrences apart:
    when [a] has no occurrence, the first one in [a ++ c :: t] is the
    first one in [t]. *)
Lemma partition_isolated (sep a t : str) (c : char) :
  partition sep a = None -> lacks c sep = true ->
  partition sep (a ++ c :: t) =
  match partition sep t with
  | Some (u, v) => Some (a ++ c :: u, v)
  | None => None
  end.
Proof.
  intros N L. induction a as [|y a IH].
  - simpl in N. destruct (strip_prefix sep []) eqn:S0; [discriminate N|].
    simpl app. rewrite partition_cons.
    assert (X : strip_prefix sep (c :: t) = None)
      by exact (strip_prefix_isolated sep [] t c S0 L).
    rewrite X.
    destruct (partition sep t) as [[u v]|]; reflexivity.
  - rewrite partition_cons in N.
    destruct (strip_prefix sep (y :: a)) eqn:S0; [discriminate N|].
    destruct (partition sep a) as [[u0 v0]|] eqn:P; [discriminate N|].
    simpl app. rewrite partition_cons.
    assert (X : strip_prefix sep (y :: a ++ c :: t) = None)
      by exact (strip_prefix_isolated sep (y :: a) t c S0 L).
    rewrite X, (IH eq_refl).
    destruct (partition sep t) as [[u v]|]; reflexivity.
Qed.

(** Text without the first character of the separator is skipped. *)
Lemma partition_skip_foreign (x : char) (sep pre t : str) :
  lacks x pre = true ->
  partition (x :: sep) (pre ++ t) =
  match partition (x :: sep) t with
  | Some (u, v) => Some (pre ++ u, v)
  | None => None
  end.
Proof.
  induction pre as [|c pre IH]; intros L.
  - simpl. destruct (partition (x :: sep) t) as [[u v]|]; reflexivity.
  - apply lacks_head in L. destruct L as [C L].
    simpl app. rewrite partition_cons. simpl strip_prefix.
    rewrite N.eqb_sym, C, (IH L).
    destruct (partition (x :: sep) t) as [[u v]|]; reflexivity.
Qed.

Lemma before_through_block (sep body z : str) :
  partition sep body = None -> lacks 10%N sep = true ->
  before sep (nl ++ body ++ nl ++ z) = nl ++ body ++ nl ++ before sep z.
Proof.
  intros N L. unfold before, nl.
  change ([10%N] ++ body ++ [10%N] ++ z)
    with ([] ++ 10%N :: (body ++ 10%N :: z)).
  assert (N0 : partition sep [] = None).
  { destruct body as [|c body]; [exact N|].
    rewrite partition_cons in N. simpl.
    destruct (strip_prefix sep []) eqn:S0; [|reflexivity].
    apply strip_prefix_Some in S0. destruct sep; [|discriminate S0].
    discriminate N. }
  rewrite_str (partition_isolated sep [] (body ++ 10%N :: z) 10%N N0 L).
  rewrite_str (partition_isolated sep body z 10%N N L).
  destruct (partition sep z) as [[u v]|]; reflexivity.
Qed.

(** What is left of a closing fence and what follows it, cut at the next
    JSON-tagged marker: nothing, or something that starts with the fence. *)
Lemma closing_fence_cut (post : str) :
  starts_with backquote post = false ->
  before fence_json (fence ++ post) = [] \/
  exists w, before fence_json (fence ++ post) = fence ++ w.
Proof.
  intros S. unfold before.
  change (fence ++ post) with (96 :: 96 :: 96 :: post)%N.
  assert (S1 : strip_prefix fence_json (96 :: 96 :: post)%N = None).
  { destruct post as [|c post]; [reflexivity|].
    change (N.eqb c 96 = false) in S.
    change (strip_prefix fence_json (96 :: 96 :: c :: post)%N)
      with (if N.eqb 96 c then strip_prefix (lit "json") post else None).
    rewrite N.eqb_sym, S. reflexivity. }
  assert (S2 : strip_prefix fence_json (96 :: post)%N = None).
  { destruct post as [|c post]; [reflexivity|].
    change (N.eqb c 96 = false) in S.
    change (strip_prefix fence_json (96 :: c :: post)%N)
      with (if N.eqb 96 c then strip_prefix (lit "`json") post else None).
    rewrite N.eqb_sym, S. reflexivity. }
  rewrite_str (partition_cons fence_json (96 :: 96 :: post)%N 96%N).
  rewrite_str (partition_cons fence_json (96 :: post)%N 96%N).
  rewrite_str (partition_cons fence_json post 96%N).
  unfold str, char in S1, S2. rewrite S1, S2.
  destruct (strip_prefix fence_json (96 :: 96 :: 96 :: post)%N);
    [left; reflexivity|].
  right. destruct (partition fence_json post) as [[u v]|].
  - exists u. reflexivity.
  - exists post. reflexivity.
Qed.

Lemma before_fence_after_cut (w : str) :
  w = [] \/ (exists w', w = fence ++ w') -> before fence w = [].
Proof.
  intros [->|[w' ->]]; reflexivity.
Qed.

Lemma strip_block (body : str) : strip (nl ++ body ++ nl ++ []) = strip body.
Proof. apply strip_pad; reflexivity. Qed.

Section Blocks.
Context {I : Interpreter}.

(** X14. A JSON-tagged block on lines of its own is found among other
    text.  With no backquote before the opening marker, no fence inside
    the block and no backquote right after the closing fence, the
    extracted text is the block stripped, whatever else follows, and the
    decision is read from it alone. *)
Theorem tagged_block_among_prose (pre body post : str) :
  lacks backquote pre = true ->
  contains fence body = false ->
  starts_with backquote post = false ->
  slice_fenced (pre ++ fence_json ++ nl ++ body ++ nl ++ fence ++ post)
  = Ok (strip body) /\
  extract (pre ++ fence_json ++ nl ++ body ++ nl ++ fence ++ post)
  = (strip body, read_decision (strip body)).
Proof.
  intros P B S.
  assert (NF : partition fence body = None).
  { unfold contains in B. destruct (partition fence body); congruence. }
  pose proof (no_fence_no_tag body NF) as NJ.
  assert (Sl : slice_fenced
                 (pre ++ fence_json ++ nl ++ body ++ nl ++ fence ++ post)
               = Ok (strip body)).
  { rewrite slice_fenced_eq.
    change fence_json with (96 :: lit "``json")%N at 1 2.
    rewrite (partition_skip_foreign 96%N (lit "``json") pre _ P).
    change (96 :: lit "``json")%N with fence_json.
    assert (P0 : partition fence_json
                   (fence_json ++ nl ++ body ++ nl ++ fence ++ post)
                 = Some ([], nl ++ body ++ nl ++ fence ++ post)).
    { apply partition_first_cut. split; [reflexivity|].
      intros pre' _. apply Nat.le_0_l. }
    rewrite P0.
    rewrite (before_through_block fence_json body (fence ++ post) NJ eq_refl).
    rewrite (before_through_block fence body _ NF eq_refl).
    rewrite (before_fence_after_cut _ (closing_fence_cut post S)).
    rewrite strip_block. reflexivity. }
  split; [exact Sl|]. unfold extract. rewrite Sl. reflexivity.
Qed.

(** X15. An untagged block on lines of its own is found among other
    text.  With no backquote before the opening fence, no fence inside
    the block and no JSON-tagged marker at or after the closing fence,
    the extracted text is the block stripped, and the decision is read
    from it alone. *)
Theorem untagged_block_among_prose (pre body post : str) :
  lacks backquote pre = true ->
  contains fence body = false ->
  contains fence_json (fence ++ post) = false ->
  slice_fenced (pre ++ fence ++ nl ++ body ++ nl ++ fence ++ post)
  = Ok (strip body) /\
  extract (pre ++ fence ++ nl ++ body ++ nl ++ fence ++ post)
  = (strip body, read_decision (strip body)).
Proof.
  intros P B S.
  assert (NF : partition fence body = None).
  { unfold contains in B. destruct (partition fence body); congruence. }
  pose proof (no_fence_no_tag body NF) as NJ.
  assert (NS : partition fence_json (fence ++ post) = None).
  { unfold contains in S.
    destruct (partition fence_json (fence ++ post)); congruence. }
  assert (Sl : slice_fenced
                 (pre ++ fence ++ nl ++ body ++ nl ++ fence ++ post)
               = Ok (strip body)).
  { rewrite slice_fenced_eq.
    assert (PJ : partition fence_json
                   (pre ++ fence ++ nl ++ body ++ nl ++ fence ++ post)
                 = None).
    { change fence_json with (96 :: lit "``json")%N.
      rewrite (partition_skip_foreign 96%N (lit "``json") pre _ P).
      change (96 :: lit "``json")%N with fence_json.
      change (fence ++ nl ++ body ++ nl ++ fence ++ post)
        with (fence ++ 10%N :: (body ++ 10%N :: (fence ++ post))).
      rewrite (partition_isolated fence_json fence _ 10%N eq_refl eq_refl).
      rewrite (partition_isolated fence_json body _ 10%N NJ eq_refl).
      rewrite NS. reflexivity. }
    rewrite PJ.
    change fence with (96 :: lit "``")%N at 1 2.
    rewrite (partition_skip_foreign 96%N (lit "``") pre _ P).
    change (96 :: lit "``")%N with fence.
    assert (P0 : partition fence
                   (fence ++ nl ++ body ++ nl ++ fence ++ post)
                 = Some ([], nl ++ body ++ nl ++ fence ++ post)).
    { apply partition_first_cut. split; [reflexivity|].
      intros pre' _. apply Nat.le_0_l. }
    rewrite P0.
    rewrite (before_through_block fence body _ NF eq_refl).
    rewrite (before_fence_after_cut (fence ++ post));
      [|right; exists post; reflexivity].
    rewrite strip_block. reflexivity. }
  split; [exact Sl|]. unfold extract. rewrite Sl. reflexivity.
Qed.

End Blocks.

(** *** [str.format] *)

Section Rendering.
Variable user_message : str.
Variable is_at : bool.
Variable history : str.

Lemma name_char_not_brace (c : char) :
  is_name_char c = true -> N.eqb c rbrace = false /\ N.eqb c lbrace = false.
Proof.
  intros H. split.
  - destruct (N.eqb_spec c rbrace) as [->|]; [discriminate H|reflexivity].
  - destruct (N.eqb_spec c lbrace) as [->|]; [discriminate H|reflexivity].
Qed.

Lemma render_text (l t out : str) :
  brace_free l = true ->
  render user_message is_at history (l ++ t) None out
  = render user_message is_at history t None (rev l ++ out).
Proof.
  revert out. induction l as [|c l IH]; intros out B; [reflexivity|].
  unfold brace_free, lacks in B. simpl in B.
  apply andb_prop in B. destruct B as [B1 B2].
  apply andb_prop in B1. destruct B1 as [C1 L1].
  apply andb_prop in B2. destruct B2 as [C2 L2].
  apply negb_true_iff in C1. apply negb_true_iff in C2.
  simpl. rewrite C1, C2. rewrite IH.
  - rewrite <- app_assoc. reflexivity.
  - unfold brace_free, lacks. rewrite L1, L2. reflexivity.
Qed.

Lemma render_piece (x : piece) (t out : str) :
  piece_ok x = true ->
  render user_message is_at history (piece_template x ++ t) None out
  = render user_message is_at history t None
           (rev (piece_value user_message is_at history x) ++ out).
Proof.
  destruct x; simpl piece_ok; intros B.
  - apply render_text. exact B.
  - reflexivity.
  - reflexivity.
  - reflexivity.
Qed.

(** Rendering a template of pieces appends the value of each piece. *)
Lemma render_pieces (ps : list piece) (t out : str) :
  forallb piece_ok ps = true ->
  render user_message is_at history (template_of ps ++ t) None out
  = render user_message is_at history t None
           (rev (filled ps user_message is_at history) ++ out).
Proof.
  revert out. induction ps as [|x ps IH]; intros out B; [reflexivity|].
  simpl in B. apply andb_prop in B. destruct B as [Bx Bps].
  unfold template_of, filled. simpl.
  rewrite <- app_assoc, (render_piece x _ _ Bx).
  fold (template_of ps). rewrite (IH _ Bps).
  fold (filled ps user_message is_at history).
  rewrite rev_app_distr, <- app_assoc. reflexivity.
Qed.

Lemma render_name (name t acc out : str) :
  forallb is_name_char name = true ->
  render user_message is_at history (name ++ rbrace :: t) (Some acc) out
  = match field_value (rev (rev name ++ acc)) user_message is_at history with
    | Rendered v =>
        render user_message is_at history t None (rev v ++ out)
    | Failed e => Failed e
    | Beyond => Beyond
    end.
Proof.
  revert acc. induction name as [|c name IH]; intros acc B.
  - reflexivity.
  - simpl in B. apply andb_prop in B. destruct B as [C B].
    destruct (name_char_not_brace c C) as [R L].
    simpl. rewrite R, L, C. rewrite (IH _ B).
    rewrite <- app_assoc. reflexivity.
Qed.

Lemma unknown_name_value (name : str) :
  unknown_name name = true ->
  field_value name user_message is_at history = Failed KeyError.
Proof.
  unfold unknown_name, field_value. intros U.
  repeat (apply andb_prop in U; let H := fresh "U" in destruct U as [U H]).
  destruct name as [|c name]; [discriminate|].
  apply negb_true_iff in U0, U1, U2, U3.
  rewrite U3, U2, U1, U0. reflexivity.
Qed.

Lemma render_open_field (c : char) (t out : str) :
  N.eqb c lbrace = false ->
  render user_message is_at history (lbrace :: c :: t) None out
  = render user_message is_at history (c :: t) (Some []) out.
Proof. intros L. simpl. rewrite L. reflexivity. Qed.

(** A field with an unknown plain name stops the rendering. *)
Lemma render_unknown_field (name rest out : str) :
  unknown_name name = true ->
  render user_message is_at history (lbrace :: name ++ rbrace :: rest)
         None out
  = Failed KeyError.
Proof.
  intros U.
  assert (Nm : forallb is_name_char name = true).
  { unfold unknown_name in U.
    repeat (apply andb_prop in U; destruct U as [U _]). exact U. }
  pose proof (render_name name rest [] out Nm) as R.
  rewrite app_nil_r, rev_involutive, (unknown_name_value name U) in R.
  destruct name as [|c name]; [discriminate U|].
  simpl in Nm. apply andb_prop in Nm. destruct Nm as [C _].
  destruct (name_char_not_brace c C) as [_ L].
  change ((c :: name) ++ rbrace :: rest) with (c :: (name ++ rbrace :: rest))
    in *.
  rewrite (render_open_field c _ out L). exact R.
Qed.

End Rendering.

(** X11. A template made of brace-free text and the three fields
    renders, and each field is replaced by its value as it is: braces in
    the message are not read as fields. *)
Theorem format_substitutes_verbatim {I : Interpreter} (ps : list piece)
        (user_message : str) (is_at : bool) (history : str) :
  forallb piece_ok ps = true ->
  Format.format (template_of ps) user_message is_at history
  = Ok (filled ps user_message is_at history).
Proof.
  intros B. unfold Format.format.
  rewrite <- (app_nil_r (template_of ps)).
  rewrite (render_pieces user_message is_at history ps [] [] B).
  simpl. rewrite app_nil_r, rev_involutive. reflexivity.
Qed.

Lemma format_substitutes_verbatim_witness :
  Format.format (I := ascii_interpreter)
    (template_of [Text (lit "Q: "); UserMessage; Text (lit " at="); IsAt])
    (lit "{history}") true (lit "N/A")
  = Ok (lit "Q: {history} at=True").
Proof.
  apply (format_substitutes_verbatim (I := ascii_interpreter)
           [Text (lit "Q: "); UserMessage; Text (lit " at="); IsAt]
           (lit "{history}") true (lit "N/A")).
  reflexivity.
Defined.

(** X12. The built-in template is five fixed texts around four fields,
    and the prompt rendered from it is those texts around the message,
    the addressed flag written [True] or [False], the history
    placeholder, and the message again. *)
Theorem default_prompt_layout {I : Interpreter} :
  exists p1 p2 p3 p4 p5,
    forallb piece_ok [Text p1; Text p2; Text p3; Text p4; Text p5] = true /\
    DEFAULT_DECISION_PROMPT
    = template_of [Text p1; UserMessage; Text p2; IsAt; Text p3; History;
                   Text p4; UserMessage; Text p5] /\
    forall user_message is_at,
      Format.format DEFAULT_DECISION_PROMPT user_message is_at (lit "N/A")
      = Ok (p1 ++ user_message ++ p2 ++ str_of_bool is_at ++ p3
               ++ lit "N/A" ++ p4 ++ user_message ++ p5).
Proof.
  exists (firstn 74 DEFAULT_DECISION_PROMPT),
         (firstn 17 (skipn 88 DEFAULT_DECISION_PROMPT)),
         (firstn 21 (skipn 112 DEFAULT_DECISION_PROMPT)),
         (firstn 384 (skipn 142 DEFAULT_DECISION_PROMPT)),
         (skipn 540 DEFAULT_DECISION_PROMPT).
  split; [vm_compute; reflexivity|].
  assert (E : DEFAULT_DECISION_PROMPT
              = template_of
                  [Text (firstn 74 DEFAULT_DECISION_PROMPT); UserMessage;
                   Text (firstn 17 (skipn 88 DEFAULT_DECISION_PROMPT)); IsAt;
                   Text (firstn 21 (skipn 112 DEFAULT_DECISION_PROMPT));
                   History;
                   Text (firstn 384 (skipn 142 DEFAULT_DECISION_PROMPT));
                   UserMessage;
                   Text (skipn 540 DEFAULT_DECISION_PROMPT)])
    by (vm_compute; reflexivity).
  split; [exact E|].
  intros user_message is_at. unfold Format.format.
  rewrite E at 1. rewrite <- (app_nil_r (template_of _)).
  rewrite (render_pieces user_message is_at (lit "N/A") _ [] []);
    [|vm_compute; reflexivity].
  cbn [render]. rewrite app_nil_r, rev_involutive.
  unfold filled. cbn [map concat piece_value].
  rewrite app_nil_r. reflexivity.
Qed.

(** *** Runs *)

Section MoreRuns.
Context {I : Interpreter}.

Variable host : Host.
Variable self : BetterAutoReplyPlugin.
Variable event : AstrMessageEvent.
Variable p : provider.

Let is_at := is_at_or_wake_command event.
Let message_text := strip (message_str event).
Let keywords := deref (lists host) (trigger_keywords self).
Let template := decision_prompt_template self.
Let start := [LogInfo (MsgReceived message_text); StopEvent].
Let run := group_message_handler host self event p.

(** The exceptions a failed extraction raises. *)
Lemma extract_error_kinds (text s : str) (e : exn) :
  extract text = (s, Raise e) ->
  e = JSONDecodeError \/
  (caught_by_inner e = false /\ is_Exception e = true).
Proof.
  unfold extract. destruct (slice_fenced_total text) as [s0 S0].
  rewrite S0. intros [= <- X].
  destruct (read_decision_outcome s0)
    as [[d D]|[(e0 & [->|[->| ->]] & D & _)|[D _]]];
    rewrite D in X; try discriminate; injection X as <-; auto.
Qed.

(** How the body of the outer [try] ends. *)
Lemma body_ending :
  forall t r, decide_and_reply self message_text is_at p = (t, r) ->
  match r with
  | Ok _ =>
      ending message_text t Returned /\ t <> []
  | Raise e =>
      if is_Exception e
      then ending message_text (t ++ [LogError (MsgUnknownError e)]) Returned
      else ending message_text t (Propagated e)
  end.
Proof.
  intros t r. unfold decide_and_reply.
  destruct (Format.format (decision_prompt_template self) message_text is_at
              (lit "N/A")) as [prompt|e] eqn:F.
  - unfold lift, mbind, text_chat, tell, raise.
    destruct (p prompt) as [resp|e|e].
    + destruct (usable resp) as [text|].
      * destruct (extract text) as [s [d|e]] eqn:X.
        -- destruct (truthy (should_reply d)) eqn:T; intros [= <- <-];
             simpl; (split; [constructor | discriminate]).
        -- destruct (extract_error_kinds _ _ _ X) as [->|[Cb Ex]].
           ++ simpl. intros [= <- <-]. split; [constructor | discriminate].
           ++ rewrite Cb. intros [= <- <-]. rewrite Ex. simpl.
              constructor. exact Ex.
      * intros [= <- <-]. split; [constructor | discriminate].
    + intros [= <- <-]. destruct (is_Exception e) eqn:Ex; simpl;
        constructor; exact Ex.
    + intros [= <- <-]. destruct (is_Exception e) eqn:Ex; simpl;
        constructor; exact Ex.
  - intros [= <- <-]. simpl. destruct (is_Exception e) eqn:Ex; simpl;
      constructor; exact Ex.
Qed.

(** A triggered run: the received line, the stop, then one ending. *)
Lemma triggered_run_ending :
  get_or (cfg_enabled (config host)) true = true ->
  is_at = true \/ keyword_match keywords message_text ->
  exists t, trace_of run = start ++ t /\
            ending message_text t (outcome_of run).
Proof.
  intros E T. unfold run. rewrite (run_triggered host self event p E T).
  fold is_at message_text.
  destruct (decide_and_reply self message_text is_at p) as [t r] eqn:B.
  pose proof (body_ending t r B) as En.
  destruct r as [u|e].
  - exists t. split; [reflexivity | apply En].
  - destruct (is_Exception e).
    + exists (t ++ [LogError (MsgUnknownError e)]). split; [reflexivity|exact En].
    + exists t. split; [reflexivity | exact En].
Qed.

(** Either the gate is closed and nothing happens, or the gate is open. *)
Lemma gate_cases :
  (trace_of run = [] /\ outcome_of run = Returned /\
   (get_or (cfg_enabled (config host)) true = false \/
    ~ (is_at = true \/ keyword_match keywords message_text))) \/
  (get_or (cfg_enabled (config host)) true = true /\
   (is_at = true \/ keyword_match keywords message_text)).
Proof.
  destruct (get_or (cfg_enabled (config host)) true) eqn:E.
  - destruct (negb is_at &&
              negb (is_triggered_by_keyword keywords message_text)) eqn:T.
    + left.
      assert (N : ~ (is_at = true \/ keyword_match keywords message_text)).
      { intros H. destruct (triggered_bool host self event p) as [Fw _].
        apply Fw in H. unfold is_at, message_text, keywords in T.
        rewrite T in H. discriminate H. }
      unfold run. rewrite (run_untriggered host self event p E N).
      repeat split. right. exact N.
    + right. split; [reflexivity|].
      apply (triggered_bool host self event p).
      unfold is_at, message_text, keywords in T. exact T.
  - left. unfold run. rewrite (run_disabled host self event p E).
    repeat split. left. reflexivity.
Qed.

(** Where an exception that escapes the body comes from. *)
Lemma body_escape (t : list action) (e : exn) :
  decide_and_reply self message_text is_at p = (t, Raise e) ->
  is_Exception e = false ->
  (Format.format template message_text is_at (lit "N/A") = Raise e /\
   t = []) \/
  (exists prompt,
      Format.format template message_text is_at (lit "N/A") = Ok prompt /\
      p prompt = Raises e /\ t = [TextChat prompt]) \/
  (exists prompt,
      Format.format template message_text is_at (lit "N/A") = Ok prompt /\
      p prompt = Unavailable e /\ t = []).
Proof.
  unfold decide_and_reply. fold template.
  destruct (Format.format template message_text is_at (lit "N/A"))
    as [prompt|e0] eqn:F.
  - unfold lift, mbind, text_chat, tell, raise.
    destruct (p prompt) as [resp|e0|e0] eqn:C.
    + destruct (usable resp) as [text|]; [|discriminate].
      destruct (extract text) as [s [d|e0]] eqn:X.
      * destruct (truthy (should_reply d)); discriminate.
      * destruct (extract_error_kinds _ _ _ X) as [->|[Cb Ex]].
        -- discriminate.
        -- rewrite Cb. intros [= <- <-] N. congruence.
    + intros [= <- <-] _. right. left. exists prompt. auto.
    + intros [= <- <-] _. right. right. exists prompt. auto.
  - intros [= <- <-] _. left. auto.
Qed.

(** X1. Every call of the handler does one of two things.  With the
    plugin disabled, or a message neither addressed nor matching a
    keyword, it does nothing and returns.  Otherwise it logs the message,
    stops the event, and ends in exactly one of eight ways: render error,
    error around the model call, no usable answer, answer that is not
    JSON, decision not to reply, decision to reply, or an exception
    escaping before or after the model call. *)
Theorem run_is_gated_then_ends :
  (trace_of run = [] /\ outcome_of run = Returned /\
   (get_or (cfg_enabled (config host)) true = false \/
    ~ (is_at = true \/ keyword_match keywords message_text))) \/
  (get_or (cfg_enabled (config host)) true = true /\
   (is_at = true \/ keyword_match keywords message_text) /\
   exists t,
     trace_of run = LogInfo (MsgReceived message_text) :: StopEvent :: t /\
     ending message_text t (outcome_of run)).
Proof.
  destruct gate_cases as [G|[E T]]; [left; exact G|].
  right. split; [exact E|]. split; [exact T|].
  exact (triggered_run_ending E T).
Qed.

(** X2. A reply request is the last thing a run does, and it comes only
    after the event was stopped, the model was called once and the three
    decision lines and the will-reply line were logged; such a run logs
    no error and returns. *)
Theorem reply_request_comes_last :
  requests (trace_of run) <> [] ->
  exists prompt why,
    trace_of run
    = [LogInfo (MsgReceived message_text); StopEvent; TextChat prompt;
       LogInfo MsgThinking; LogInfo (MsgReasoning why);
       LogInfo (MsgIntent true); LogInfo MsgWillReply;
       RequestLLM message_text] /\
    outcome_of run = Returned.
Proof.
  intros R. destruct gate_cases as [(Tr & _)|[E T]].
  - rewrite Tr in R. exfalso. apply R. reflexivity.
  - destruct (triggered_run_ending E T) as (t & Tr & En).
    rewrite Tr in R |- *.
    destruct En; simpl in R; try (exfalso; apply R; reflexivity).
    exists prompt, why. split; reflexivity.
Qed.

(** X3. No run logs more than one error or calls the model more than
    once; no run both logs an error and asks for a reply; and no run asks
    for a reply without having called the model. *)
Theorem one_error_or_one_reply :
  length (errors (trace_of run)) <= 1 /\
  length (model_calls (trace_of run)) <= 1 /\
  (errors (trace_of run) = [] \/ requests (trace_of run) = []) /\
  (requests (trace_of run) = [] \/ length (model_calls (trace_of run)) = 1).
Proof.
  destruct gate_cases as [(Tr & _)|[E T]].
  - rewrite Tr. simpl. auto.
  - destruct (triggered_run_ending E T) as (t & Tr & En).
    rewrite Tr. destruct En; simpl; auto.
Qed.

(** X4. The prompt of a reply request is the message stripped: the
    message is that prompt between two runs of whitespace, and the prompt
    neither starts nor ends with whitespace. *)
Theorem reply_prompt_is_trimmed (q : str) :
  In q (requests (trace_of run)) ->
  q = strip (message_str event) /\
  starts_with_space q = false /\ ends_with_space q = false /\
  exists w w',
    all_space w = true /\ all_space w' = true /\
    message_str event = w ++ q ++ w'.
Proof.
  intros Hq.
  assert (Q : q = strip (message_str event)).
  { destruct gate_cases as [(Tr & _)|[E T]].
    - rewrite Tr in Hq. destruct Hq.
    - destruct (triggered_run_ending E T) as (t & Tr & En).
      rewrite Tr in Hq.
      destruct En; simpl in Hq; try contradiction.
      destruct Hq as [<-|[]]. reflexivity. }
  subst q. destruct (strip_spec (message_str event)) as ((w & w' & W) & S & S').
  split; [reflexivity|]. split; [exact S|]. split; [exact S'|].
  exists w, w'. exact W.
Qed.

(** X5. The handler returns normally whenever the rendering of the
    template and the provider, in being obtained or in being called,
    raise nothing but [Exception]s: whatever else goes wrong is caught
    and logged. *)
Theorem only_base_exceptions_escape :
  (forall e,
      Format.format template message_text is_at (lit "N/A") = Raise e ->
      is_Exception e = true) ->
  (forall prompt e,
      p prompt = Raises e \/ p prompt = Unavailable e ->
      is_Exception e = true) ->
  outcome_of run = Returned.
Proof.
  intros HF HP. unfold run. rewrite run_eq.
  destruct (negb (get_or (cfg_enabled (config host)) true)); [reflexivity|].
  match goal with
  | |- context [if ?b then _ else _] => destruct b; [reflexivity|]
  end.
  fold is_at message_text.
  destruct (decide_and_reply self message_text is_at p) as [t [u|e]] eqn:B;
    [reflexivity|].
  destruct (is_Exception e) eqn:Ex; [reflexivity|].
  exfalso.
  destruct (body_escape t e B Ex)
    as [[F _]|[(prompt & _ & C & _)|(prompt & _ & C & _)]].
  - apply HF in F. congruence.
  - specialize (HP prompt e (or_introl C)). congruence.
  - specialize (HP prompt e (or_intror C)). congruence.
Qed.

(** X6. An exception of the provider that is not an [Exception], such as
    a cancellation, is not swallowed: the run ends right after the model
    call, with no error line and no reply request, and the exception
    leaves the handler. *)
Theorem cancellation_escapes (prompt : str) (e : exn) :
  get_or (cfg_enabled (config host)) true = true ->
  is_at = true \/ keyword_match keywords message_text ->
  Format.format template message_text is_at (lit "N/A") = Ok prompt ->
  p prompt = Raises e ->
  is_Exception e = false ->
  trace_of run
  = [LogInfo (MsgReceived message_text); StopEvent; TextChat prompt] /\
  outcome_of run = Propagated e.
Proof.
  intros E T F C Ex. unfold run.
  rewrite (run_triggered host self event p E T).
  rewrite (body_call_raises self event p F C), Ex. split; reflexivity.
Qed.

(** X17. When the provider cannot be obtained, a triggered run whose
    template renders takes the message from the other handlers, makes no
    model call and asks for no reply: an [Exception] is logged as an
    unknown error and the handler returns, anything else leaves the
    handler with nothing logged. *)
Theorem missing_provider_makes_no_call (prompt : str) (e : exn) :
  get_or (cfg_enabled (config host)) true = true ->
  is_at = true \/ keyword_match keywords message_text ->
  Format.format template message_text is_at (lit "N/A") = Ok prompt ->
  p prompt = Unavailable e ->
  model_calls (trace_of run) = [] /\
  requests (trace_of run) = [] /\
  (is_Exception e = true ->
   trace_of run
   = [LogInfo (MsgReceived message_text); StopEvent;
      LogError (MsgUnknownError e)] /\
   outcome_of run = Returned) /\
  (is_Exception e = false ->
   trace_of run = [LogInfo (MsgReceived message_text); StopEvent] /\
   outcome_of run = Propagated e).
Proof.
  intros E T F C. unfold run.
  rewrite (run_triggered host self event p E T).
  rewrite (body_unavailable self event p F C).
  destruct (is_Exception e); repeat split; intros; discriminate.
Qed.

(** X7. An empty keyword in the list opens the gate for every message:
    the empty string occurs in every text. *)
Theorem empty_keyword_matches_everything :
  lower [] = [] ->
  In [] keywords ->
  get_or (cfg_enabled (config host)) true = true ->
  stops_event (trace_of run) = true.
Proof.
  intros L K E.
  assert (T : is_at = true \/ keyword_match keywords message_text).
  { right. exists []. split; [exact K|].
    exists [], (lower message_text). rewrite L. reflexivity. }
  destruct (triggered_run_ending E T) as (t & Tr & _).
  rewrite Tr. reflexivity.
Qed.

(** X13. A template with a misspelled key silences the plugin.  When
    the first field that is not one of the three keys is a plain name,
    every triggered message is taken from the other handlers, the
    [KeyError] is logged, and neither the model nor the reply path is
    reached. *)
Theorem misspelled_key_silences (ps : list piece) (name rest : str) :
  template = template_of ps ++ lbrace :: name ++ rbrace :: rest ->
  forallb piece_ok ps = true ->
  unknown_name name = true ->
  get_or (cfg_enabled (config host)) true = true ->
  is_at = true \/ keyword_match keywords message_text ->
  Format.format template message_text is_at (lit "N/A") = Raise KeyError /\
  trace_of run
  = [LogInfo (MsgReceived message_text); StopEvent;
     LogError (MsgUnknownError KeyError)] /\
  outcome_of run = Returned.
Proof.
  intros Tm B U E T.
  assert (F : Format.format template message_text is_at (lit "N/A")
              = Raise KeyError).
  { rewrite Tm. unfold Format.format.
    rewrite (render_pieces message_text is_at (lit "N/A") ps _ [] B).
    rewrite (render_unknown_field message_text is_at (lit "N/A") name rest _ U).
    reflexivity. }
  split; [exact F|].
  unfold run. rewrite (run_triggered host self event p E T).
  rewrite (body_format_error self event p F). split; reflexivity.
Qed.

End MoreRuns.

Section AcrossRuns.
Context {I : Interpreter}.

(** X8. Whitespace around the message makes no difference: a message
    and the same message with whitespace before and after it give the
    same run. *)
Theorem padding_is_ignored (host : Host) (self : BetterAutoReplyPlugin)
        (p : provider) (is_at : bool) (w m w' : str) :
  all_space w = true -> all_space w' = true ->
  group_message_handler host self
    {| is_at_or_wake_command := is_at; message_str := w ++ m ++ w' |} p
  = group_message_handler host self
      {| is_at_or_wake_command := is_at; message_str := m |} p.
Proof.
  intros W W'. rewrite !run_eq. simpl.
  rewrite (strip_pad w m w' W W'). reflexivity.
Qed.

(** X9. Handling a message leaves nothing behind: the plugin a call
    returns handles the next message exactly as the plugin before the
    call would. *)
Theorem handling_is_stateless (h0 h : Host) (self : BetterAutoReplyPlugin)
        (e0 e : AstrMessageEvent) (p0 p : provider) :
  group_message_handler h (self_of (group_message_handler h0 self e0 p0)) e p
  = group_message_handler h self e p.
Proof.
  assert (S : self_of (group_message_handler h0 self e0 p0)
              = {| enabled := get_or (cfg_enabled (config h0)) true;
                   trigger_keywords := trigger_keywords self;
                   decision_prompt_template :=
                     decision_prompt_template self |}).
  { rewrite run_eq.
    destruct (negb (get_or (cfg_enabled (config h0)) true)); [reflexivity|].
    match goal with
    | |- context [if ?b then _ else _] => destruct b; [reflexivity|]
    end.
    destruct (decide_and_reply self (strip (message_str e0))
                (is_at_or_wake_command e0) p0) as [t [u|x]]; [reflexivity|].
    destruct (is_Exception x); reflexivity. }
  rewrite S. reflexivity.
Qed.

(** X10. A plugin initialized from a configuration without keywords and
    without a template, and enabled, reacts to addressed messages only: an
    unaddressed message does nothing, and for an addressed one the
    built-in template renders and, when the provider is obtained, exactly
    one model call is made, with the rendered prompt; when the provider
    cannot be obtained no model call is made. *)
Theorem out_of_the_box (h : Host) (event : AstrMessageEvent) (p : provider) :
  cfg_trigger_keywords (config h) = None ->
  cfg_decision_making_prompt (config h) = None ->
  get_or (cfg_enabled (config h)) true = true ->
  let run := group_message_handler (host_of (init h)) (plugin_of (init h))
                                   event p in
  (is_at_or_wake_command event = false -> trace_of run = []) /\
  (is_at_or_wake_command event = true ->
   exists prompt,
     Format.format DEFAULT_DECISION_PROMPT (strip (message_str event)) true
                   (lit "N/A") = Ok prompt /\
     model_calls (trace_of run)
     = if is_called (p prompt) then [prompt] else []).
Proof.
  intros K D E run.
  assert (Kw : deref (lists (host_of (init h)))
                     (trigger_keywords (plugin_of (init h))) = []).
  { unfold init, host_of, plugin_of, deref. simpl. rewrite K. simpl.
    rewrite app_nth2, Nat.sub_diag by apply le_n. reflexivity. }
  assert (Tm : decision_prompt_template (plugin_of (init h))
               = DEFAULT_DECISION_PROMPT).
  { unfold init, plugin_of. simpl. rewrite D. reflexivity. }
  split.
  - intros A. unfold run.
    rewrite (run_untriggered (host_of (init h)) (plugin_of (init h)) event p
               E); [reflexivity|].
    intros [T|(k & Hin & _)]; [congruence|].
    rewrite Kw in Hin. destruct Hin.
  - intros A.
    destruct (default_prompt_renders (strip (message_str event)) true)
      as [prompt F].
    exists prompt. split; [exact F|].
    unfold run.
    rewrite (run_triggered (host_of (init h)) (plugin_of (init h)) event p
               E (or_introl A)).
    destruct (decide_and_reply (plugin_of (init h))
                (strip (message_str event)) (is_at_or_wake_command event) p)
      as [t r] eqn:B.
    destruct (body_shape (plugin_of (init h)) event p t r B) as (_ & _ & M).
    rewrite Tm, A, F in M.
    destruct r as [u|x]; [|destruct (is_Exception x)];
      unfold trace_of; simpl; rewrite ?model_calls_app, M; simpl;
      rewrite ?app_nil_r; reflexivity.
Qed.

End AcrossRuns.

(** *** The theorems at sample runs *)

Lemma tagged_block_among_prose_witness :
  slice_fenced (lit "Sure: " ++ fence_json ++ nl ++ decision_json "true" "x"
                  ++ nl ++ fence ++ nl ++ lit "done")
  = Ok (strip (decision_json "true" "x")).
Proof.
  apply (proj1 (tagged_block_among_prose (I := ascii_interpreter)
                  (lit "Sure: ") (decision_json "true" "x")
                  (nl ++ lit "done") eq_refl eq_refl eq_refl)).
Defined.

Lemma untagged_block_among_prose_witness :
  slice_fenced (lit "Sure: " ++ fence ++ nl ++ decision_json "false" "y"
                  ++ nl ++ fence ++ lit " done")
  = Ok (strip (decision_json "false" "y")).
Proof.
  apply (proj1 (untagged_block_among_prose (I := ascii_interpreter)
                  (lit "Sure: ") (decision_json "false" "y")
                  (lit " done") eq_refl eq_refl eq_refl)).
Defined.

Lemma misspelled_key_silences_witness :
  trace_of (group_message_handler (I := ascii_interpreter)
              (host_with (Some (lit "Say: {mesage}!")))
              (plugin_of (init (host_with (Some (lit "Say: {mesage}!")))))
              (addressed (lit "hi")) (answers bare_z))
  = [LogInfo (MsgReceived (strip (lit "hi"))); StopEvent;
     LogError (MsgUnknownError KeyError)].
Proof.
  apply (proj1 (proj2 (misspelled_key_silences (I := ascii_interpreter)
           (host_with (Some (lit "Say: {mesage}!")))
           (plugin_of (init (host_with (Some (lit "Say: {mesage}!")))))
           (addressed (lit "hi")) (answers bare_z)
           [Text (lit "Say: ")] (lit "mesage") (lit "!")
           eq_refl eq_refl eq_refl eq_refl (or_introl eq_refl)))).
Defined.

Lemma padding_is_ignored_witness :
  group_message_handler (I := ascii_interpreter)
    (host_with None) (plugin_of (init (host_with None)))
    (addressed (lit " hi" ++ nl)) silent
  = group_message_handler (I := ascii_interpreter)
      (host_with None) (plugin_of (init (host_with None)))
      (addressed (lit "hi")) silent.
Proof.
  apply (padding_is_ignored (I := ascii_interpreter)
           (host_with None) (plugin_of (init (host_with None))) silent
           true (lit " ") (lit "hi") nl); reflexivity.
Defined.

Lemma out_of_the_box_witness :
  trace_of (group_message_handler (I := ascii_interpreter)
              (host_of (init (host_with None)))
              (plugin_of (init (host_with None)))
              (unaddressed (lit "hi")) silent)
  = [].
Proof.
  apply (proj1 (out_of_the_box (I := ascii_interpreter) (host_with None)
                  (unaddressed (lit "hi")) silent
                  eq_refl eq_refl eq_refl)).
  reflexivity.
Defined.

Lemma reply_request_comes_last_witness :
  exists prompt why,
    trace_of (group_message_handler (I := ascii_interpreter)
                (host_with (Some (lit "{user_message}")))
                (plugin_of (init (host_with (Some (lit "{user_message}")))))
                (addressed (lit " hi ")) (answers bare_z))
    = [LogInfo (MsgReceived (strip (lit " hi "))); StopEvent;
       TextChat prompt; LogInfo MsgThinking; LogInfo (MsgReasoning why);
       LogInfo (MsgIntent true); LogInfo MsgWillReply;
       RequestLLM (strip (lit " hi "))] /\
    outcome_of (group_message_handler (I := ascii_interpreter)
                  (host_with (Some (lit "{user_message}")))
                  (plugin_of (init (host_with (Some (lit "{user_message}")))))
                  (addressed (lit " hi ")) (answers bare_z))
    = Returned.
Proof.
  apply (reply_request_comes_last (I := ascii_interpreter)
           (host_with (Some (lit "{user_message}")))
           (plugin_of (init (host_with (Some (lit "{user_message}")))))
           (addressed (lit " hi ")) (answers bare_z)).
  vm_compute. discriminate.
Defined.

Lemma reply_prompt_is_trimmed_witness :
  starts_with_space (lit "hi") = false /\ ends_with_space (lit "hi") = false.
Proof.
  destruct (reply_prompt_is_trimmed (I := ascii_interpreter)
              (host_with (Some (lit "{user_message}")))
              (plugin_of (init (host_with (Some (lit "{user_message}")))))
              (addressed (lit " hi ")) (answers bare_z) (lit "hi"))
    as (_ & S & S' & _).
  - vm_compute. left. reflexivity.
  - split; [exact S | exact S'].
Defined.

Lemma only_base_exceptions_escape_witness :
  outcome_of (group_message_handler (I := ascii_interpreter)
                (host_with (Some (lit "{user_message}")))
                (plugin_of (init (host_with (Some (lit "{user_message}")))))
                (addressed (lit "hi")) absent)
  = Returned.
Proof.
  apply (only_base_exceptions_escape (I := ascii_interpreter)
           (host_with (Some (lit "{user_message}")))
           (plugin_of (init (host_with (Some (lit "{user_message}")))))
           (addressed (lit "hi")) absent).
  - intros e F. vm_compute in F. discriminate F.
  - intros prompt e [C|C]; [discriminate C|].
    injection C as <-. reflexivity.
Defined.

Lemma missing_provider_makes_no_call_witness :
  trace_of (group_message_handler (I := ascii_interpreter)
              (host_with (Some (lit "{user_message}")))
              (plugin_of (init (host_with (Some (lit "{user_message}")))))
              (addressed (lit "hi")) absent)
  = [LogInfo (MsgReceived (strip (lit "hi"))); StopEvent;
     LogError (MsgUnknownError AttributeError)].
Proof.
  apply (proj1 (proj2 (proj2 (missing_provider_makes_no_call
                  (I := ascii_interpreter)
                  (host_with (Some (lit "{user_message}")))
                  (plugin_of (init (host_with (Some (lit "{user_message}")))))
                  (addressed (lit "hi")) absent
                  (lit "hi") AttributeError
                  eq_refl (or_introl eq_refl) eq_refl eq_refl)))).
  reflexivity.
Defined.

Lemma cancellation_escapes_witness :
  outcome_of (group_message_handler (I := ascii_interpreter)
                (host_with (Some (lit "{user_message}")))
                (plugin_of (init (host_with (Some (lit "{user_message}")))))
                (addressed (lit "hi")) (fun _ => Raises CancelledError))
  = Propagated CancelledError.
Proof.
  apply (cancellation_escapes (I := ascii_interpreter)
           (host_with (Some (lit "{user_message}")))
           (plugin_of (init (host_with (Some (lit "{user_message}")))))
           (addressed (lit "hi")) (fun _ => Raises CancelledError)
           (lit "hi") CancelledError).
  - reflexivity.
  - left. reflexivity.
  - vm_compute. reflexivity.
  - reflexivity.
  - reflexivity.
Defined.

Lemma empty_keyword_matches_everything_witness :
  stops_event (trace_of (group_message_handler (I := ascii_interpreter)
                 (host_keyword []) (plugin_of (init (host_keyword [])))
                 (unaddressed (lit "anything")) silent))
  = true.
Proof.
  apply (empty_keyword_matches_everything (I := ascii_interpreter)
           (host_keyword []) (plugin_of (init (host_keyword [])))
           (unaddressed (lit "anything")) silent).
  - reflexivity.
  - left. reflexivity.
  - reflexivity.
Defined.

End MoreFacts.
